(** * libfreenect C++ wrapper ([include/libfreenect.hpp])

    A shallow embedding of the two classes of the header,
    [Freenect::FreenectDevice] (the Device Handle) and
    [Freenect::Freenect<T>] (the Context Manager), over an explicit model of
    the world they act on: the native driver, the heap of Device Handle
    objects, the Context Manager object and the trace of external calls.

    Every member function is a computation in a state-and-exception monad
    [M]: a C++ [throw] is the outcome [Throw], and the effects performed
    before the throw stay in the world. *)

From Stdlib Require Import ZArith PrimFloat.
From stdpp Require Import base option list sorting gmap sets strings.

Open Scope Z_scope.

(** ** Values of the C interface *)

(** [freenect_device*]: the driver's opaque per-device handle. *)
Definition freenect_device := nat.
(** [freenect_context*]. *)
Definition freenect_context := nat.
(** Address of a heap-allocated [FreenectDevice] ([T*], and the [void*]
    user pointer that holds one). *)
Definition ptr := nat.
(** [pthread_t]. *)
Definition pthread_t := nat.
(** [freenect_pixel*] / [freenect_depth*]: address of a frame buffer. *)
Definition buffer := Z.
(** [uint32_t]. *)
Definition uint32_t := Z.
(** [int16_t]. *)
Definition int16_t := Z.
(** [double]. *)
Definition double := float.

Inductive freenect_led_options :=
| LED_OFF | LED_GREEN | LED_RED | LED_YELLOW
| LED_BLINK_YELLOW | LED_BLINK_GREEN | LED_BLINK_RED_YELLOW.

Inductive freenect_rgb_format := FREENECT_FORMAT_RGB | FREENECT_FORMAT_BAYER.
Inductive freenect_depth_format :=
| FREENECT_FORMAT_11_BIT | FREENECT_FORMAT_10_BIT
| FREENECT_FORMAT_PACKED_11_BIT | FREENECT_FORMAT_PACKED_10_BIT.

(** The two function pointers the header ever registers with the driver:
    the addresses of its static trampolines. *)
Inductive depth_cb_ptr := addr_freenect_depth_callback.
Inductive rgb_cb_ptr := addr_freenect_rgb_callback.

(** ** Exceptions

    Every [throw] of the header is a [std::runtime_error] carrying a fixed
    message; [std::map::at] may throw [std::out_of_range].  Using a pointer
    to a destroyed object has no defined behaviour; the model stops the
    computation there with [undefined_behaviour]. *)
Inductive exn :=
| runtime_error (what : string)
| out_of_range
| undefined_behaviour.

#[global] Instance exn_eq_dec : EqDecision exn.
Proof. solve_decision. Defined.

Definition InitError := runtime_error "Cannot initialize freenect library".
Definition ThreadStartError := runtime_error "Cannot initialize freenect thread".
Definition ShutdownError := runtime_error "Cannot cleanup freenect library".
Definition EventProcessingError := runtime_error "Cannot process freenect events".
Definition DeviceOpenError := runtime_error "Cannot open Kinect".
Definition DeviceCloseError := runtime_error "Cannot shutdown Kinect".
Definition StartRGBError := runtime_error "Cannot start RGB callback".
Definition StopRGBError := runtime_error "Cannot stop RGB callback".
Definition StartDepthError := runtime_error "Cannot start depth callback".
Definition StopDepthError := runtime_error "Cannot stop depth callback".
Definition TiltError := runtime_error "Cannot set angle in degrees".
Definition LedError := runtime_error "Cannot set led".
Definition AccelMksError := runtime_error "Cannot get mks accemerometers".
Definition AccelRawError := runtime_error "Cannot get raw accemerometers".


(** ** The world the wrapper acts on *)

(** Driver-side state of one open device. *)
Record device_state := Build_device_state {
  dev_index : Z;
  dev_user : option ptr;
  dev_rgb_format : option freenect_rgb_format;
  dev_depth_format : option freenect_depth_format;
  dev_depth_cb : option depth_cb_ptr;
  dev_rgb_cb : option rgb_cb_ptr;
  dev_rgb_on : bool;
  dev_depth_on : bool;
  dev_tilt : double;
  dev_led : freenect_led_options;
  dev_accel_mks : double * double * double;
  dev_accel_raw : int16_t * int16_t * int16_t
}.

(** A frame the hardware has produced and the driver has not yet handed to
    a callback. *)
Inductive frame :=
| DepthFrame (dev : freenect_device) (depth : buffer) (timestamp : uint32_t)
| RGBFrame (dev : freenect_device) (rgb : buffer) (timestamp : uint32_t).

Record driver := Build_driver {
  contexts : gset freenect_context;
  next_context : freenect_context;
  devices : gmap freenect_device device_state;
  next_device : freenect_device;
  attached : Z;
  pending : list frame
}.

(** Fields of [Freenect::FreenectDevice]. *)
Record FreenectDevice := Build_FreenectDevice {
  m_dev : freenect_device
}.

(** Fields of [Freenect::Freenect<T>]; [std::map<int, T*>] is a finite map
    from index to the address of the handle. *)
Record Freenect := Build_Freenect {
  m_ctx : freenect_context;
  m_stop : bool;
  m_thread : pthread_t;
  m_devices : gmap Z ptr
}.

(** What the outside can see of a run, in the order it happens: the calls
    into the driver and into pthreads, the store to the stop flag in the
    destructor, and the runs of the application's frame handlers. *)
Inductive event :=
| Call_init
| Call_shutdown (c : freenect_context)
| Call_num_devices (c : freenect_context)
| Call_open_device (c : freenect_context) (index : Z)
| Call_close_device (d : freenect_device)
| Call_start_rgb (d : freenect_device)
| Call_stop_rgb (d : freenect_device)
| Call_start_depth (d : freenect_device)
| Call_stop_depth (d : freenect_device)
| Call_set_tilt_degs (d : freenect_device)
| Call_set_led (d : freenect_device) (o : freenect_led_options)
| Call_get_mks_accel (d : freenect_device)
| Call_get_raw_accel (d : freenect_device)
| Call_process_events (c : freenect_context)
| Call_pthread_create
| Call_pthread_join (t : pthread_t)
| Store_stop
| Run_DepthCallback (this : ptr) (depth : buffer) (timestamp : uint32_t)
| Run_RGBCallback (this : ptr) (rgb : buffer) (timestamp : uint32_t).

Record world := Build_world {
  drv : driver;
  heap : gmap ptr FreenectDevice;
  next_ptr : ptr;
  next_thread : pthread_t;
  self : Freenect;
  oracle : list Z;
  trace : list event
}.

(** Field updates. *)
Definition with_drv (f : driver → driver) (w : world) : world :=
  Build_world (f (drv w)) (heap w) (next_ptr w) (next_thread w) (self w)
    (oracle w) (trace w).
Definition with_heap (f : gmap ptr FreenectDevice → gmap ptr FreenectDevice)
    (w : world) : world :=
  Build_world (drv w) (f (heap w)) (next_ptr w) (next_thread w) (self w)
    (oracle w) (trace w).
Definition with_self (f : Freenect → Freenect) (w : world) : world :=
  Build_world (drv w) (heap w) (next_ptr w) (next_thread w) (f (self w))
    (oracle w) (trace w).
Definition with_trace (f : list event → list event) (w : world) : world :=
  Build_world (drv w) (heap w) (next_ptr w) (next_thread w) (self w)
    (oracle w) (f (trace w)).

Definition with_devices
    (f : gmap freenect_device device_state → gmap freenect_device device_state)
    (d : driver) : driver :=
  Build_driver (contexts d) (next_context d) (f (devices d)) (next_device d)
    (attached d) (pending d).
Definition with_contexts (f : gset freenect_context → gset freenect_context)
    (d : driver) : driver :=
  Build_driver (f (contexts d)) (next_context d) (devices d) (next_device d)
    (attached d) (pending d).
Definition with_pending (f : list frame → list frame) (d : driver) : driver :=
  Build_driver (contexts d) (next_context d) (devices d) (next_device d)
    (attached d) (f (pending d)).

Definition set_user (p : option ptr) (s : device_state) : device_state :=
  Build_device_state (dev_index s) p (dev_rgb_format s) (dev_depth_format s)
    (dev_depth_cb s) (dev_rgb_cb s) (dev_rgb_on s) (dev_depth_on s)
    (dev_tilt s) (dev_led s) (dev_accel_mks s) (dev_accel_raw s).
Definition set_rgb_format (f : freenect_rgb_format) (s : device_state) :=
  Build_device_state (dev_index s) (dev_user s) (Some f) (dev_depth_format s)
    (dev_depth_cb s) (dev_rgb_cb s) (dev_rgb_on s) (dev_depth_on s)
    (dev_tilt s) (dev_led s) (dev_accel_mks s) (dev_accel_raw s).
Definition set_depth_format (f : freenect_depth_format) (s : device_state) :=
  Build_device_state (dev_index s) (dev_user s) (dev_rgb_format s) (Some f)
    (dev_depth_cb s) (dev_rgb_cb s) (dev_rgb_on s) (dev_depth_on s)
    (dev_tilt s) (dev_led s) (dev_accel_mks s) (dev_accel_raw s).
Definition set_depth_cb (c : depth_cb_ptr) (s : device_state) :=
  Build_device_state (dev_index s) (dev_user s) (dev_rgb_format s)
    (dev_depth_format s) (Some c) (dev_rgb_cb s) (dev_rgb_on s)
    (dev_depth_on s) (dev_tilt s) (dev_led s) (dev_accel_mks s)
    (dev_accel_raw s).
Definition set_rgb_cb (c : rgb_cb_ptr) (s : device_state) :=
  Build_device_state (dev_index s) (dev_user s) (dev_rgb_format s)
    (dev_depth_format s) (dev_depth_cb s) (Some c) (dev_rgb_on s)
    (dev_depth_on s) (dev_tilt s) (dev_led s) (dev_accel_mks s)
    (dev_accel_raw s).
Definition set_rgb_on (b : bool) (s : device_state) :=
  Build_device_state (dev_index s) (dev_user s) (dev_rgb_format s)
    (dev_depth_format s) (dev_depth_cb s) (dev_rgb_cb s) b (dev_depth_on s)
    (dev_tilt s) (dev_led s) (dev_accel_mks s) (dev_accel_raw s).
Definition set_depth_on (b : bool) (s : device_state) :=
  Build_device_state (dev_index s) (dev_user s) (dev_rgb_format s)
    (dev_depth_format s) (dev_depth_cb s) (dev_rgb_cb s) (dev_rgb_on s) b
    (dev_tilt s) (dev_led s) (dev_accel_mks s) (dev_accel_raw s).
Definition set_tilt (a : double) (s : device_state) :=
  Build_device_state (dev_index s) (dev_user s) (dev_rgb_format s)
    (dev_depth_format s) (dev_depth_cb s) (dev_rgb_cb s) (dev_rgb_on s)
    (dev_depth_on s) a (dev_led s) (dev_accel_mks s) (dev_accel_raw s).
Definition set_led (o : freenect_led_options) (s : device_state) :=
  Build_device_state (dev_index s) (dev_user s) (dev_rgb_format s)
    (dev_depth_format s) (dev_depth_cb s) (dev_rgb_cb s) (dev_rgb_on s)
    (dev_depth_on s) (dev_tilt s) o (dev_accel_mks s) (dev_accel_raw s).

(** ** The monad of member functions *)

Inductive outcome (A : Type) :=
| Ok (a : A)
| Throw (e : exn).
Arguments Ok {A} a.
Arguments Throw {A} e.

Definition M (A : Type) : Type := world → outcome A * world.

Definition ret {A} (a : A) : M A := λ w, (Ok a, w).
Definition throw {A} (e : exn) : M A := λ w, (Throw e, w).
Definition bind {A B} (m : M A) (k : A → M B) : M B :=
  λ w, match m w with
       | (Ok a, w') => k a w'
       | (Throw e, w') => (Throw e, w')
       end.
(** [m], then [c] whether [m] returned or threw (what the language runs
    during unwinding). *)
Definition finally {A} (m : M A) (c : world → world) : M A :=
  λ w, let '(r, w') := m w in (r, c w').
Definition get : M world := λ w, (Ok w, w).
Definition modify (f : world → world) : M unit := λ w, (Ok tt, f w).
Definition log (e : event) : M unit := modify (with_trace (λ t, t ++ [e])).

Declare Scope m_scope.
Delimit Scope m_scope with M.
Notation "'let!' x ':=' m 'in' k" := (bind m (λ x, k))
  (at level 10, x pattern, m at level 100, k at level 200) : m_scope.
Notation "m ';;;' k" := (bind m (λ _, k))
  (at level 100, k at level 200, right associativity) : m_scope.
Open Scope m_scope.

(** The status code of the next fallible external call: the head of
    [oracle], [0] (success) once it is exhausted.  Quantifying over the
    oracle quantifies over every behaviour of the driver and of pthreads. *)
Definition next_status : M Z :=
  λ w, (Ok (hd 0 (oracle w)),
        Build_world (drv w) (heap w) (next_ptr w) (next_thread w) (self w)
          (tl (oracle w)) (trace w)).

(** ** The native driver and pthreads

    Modelled from the spec: [libfreenect.h], the driver behind it and
    [pthread.h] are not part of the header.  Section 6 of the spec lists the
    operations the wrapper consumes and says that each reports success or
    failure through a status code, zero meaning success.  The model keeps
    what the wrapper can observe of them:
    - a call that reports a status takes it from [oracle], and changes the
      driver state only when the status is zero;
    - opening a device yields a device handle no open device has, with a
      null user pointer and no callback;
    - the user pointer of a device is changed by [freenect_set_user] alone
      and read by [freenect_get_user];
    - [freenect_process_events] hands every pending frame of an open,
      streaming device to the callback registered for its kind. *)

(** Modelled from the spec: the state of a device just opened (no user
    pointer, no callback, no stream started). *)
Definition fresh_device (index : Z) : device_state :=
  Build_device_state index None None None None None false false
    PrimFloat.zero LED_OFF (PrimFloat.zero, PrimFloat.zero, PrimFloat.zero)
    (0, 0, 0).

(** Modelled from the spec: a change of the driver's state of device [d];
    nothing happens when [d] is not open. *)
Definition update_device (d : freenect_device)
    (f : device_state → device_state) : M unit :=
  modify (with_drv (with_devices (alter f d))).

(** Modelled from the spec: context init; on success a context no other
    call returned is written through the first argument. *)
Definition freenect_init : M (Z * freenect_context) :=
  log Call_init;;;
  let! s := next_status in
  let! w := get in
  let c := next_context (drv w) in
  if decide (s = 0) then
    modify (with_drv (λ d,
      Build_driver ({[c]} ∪ contexts d) (S c) (devices d) (next_device d)
        (attached d) (pending d)));;;
    ret (s, c)
  else ret (s, m_ctx (self w)).

(** Modelled from the spec: context shutdown; on success the context is
    released. *)
Definition freenect_shutdown (c : freenect_context) : M Z :=
  log (Call_shutdown c);;;
  let! s := next_status in
  (if decide (s = 0) then modify (with_drv (with_contexts (λ cs, cs ∖ {[c]})))
   else ret tt);;;
  ret s.

(** Modelled from the spec: device count query. *)
Definition freenect_num_devices (c : freenect_context) : M Z :=
  log (Call_num_devices c);;;
  let! w := get in
  ret (attached (drv w)).

(** Modelled from the spec: device open by index; on success a device
    handle no open device has is written through the second argument. *)
Definition freenect_open_device (c : freenect_context) (index : Z)
    : M (Z * freenect_device) :=
  log (Call_open_device c index);;;
  let! s := next_status in
  let! w := get in
  let d := next_device (drv w) in
  if decide (s = 0) then
    modify (with_drv (λ dr,
      Build_driver (contexts dr) (next_context dr)
        (<[d := fresh_device index]> (devices dr)) (S d)
        (attached dr) (pending dr)));;;
    ret (s, d)
  else ret (s, d).

(** Modelled from the spec: device close; on success the device is no
    longer open. *)
Definition freenect_close_device (d : freenect_device) : M Z :=
  log (Call_close_device d);;;
  let! s := next_status in
  (if decide (s = 0) then modify (with_drv (with_devices (delete d)))
   else ret tt);;;
  ret s.

(** Modelled from the spec: set the user-data pointer of a device. *)
Definition freenect_set_user (d : freenect_device) (user : ptr) : M unit :=
  update_device d (set_user (Some user)).

(** Modelled from the spec: get the user-data pointer of a device (null
    when none was set). *)
Definition freenect_get_user (d : freenect_device) : M (option ptr) :=
  let! w := get in
  ret (devices (drv w) !! d ≫= dev_user).

(** Modelled from the spec: set rgb pixel format. *)
Definition freenect_set_rgb_format (d : freenect_device)
    (f : freenect_rgb_format) : M unit :=
  update_device d (set_rgb_format f).

(** Modelled from the spec: set depth bit format. *)
Definition freenect_set_depth_format (d : freenect_device)
    (f : freenect_depth_format) : M unit :=
  update_device d (set_depth_format f).

(** Modelled from the spec: register the depth callback of a device. *)
Definition freenect_set_depth_callback (d : freenect_device)
    (cb : depth_cb_ptr) : M unit :=
  update_device d (set_depth_cb cb).

(** Modelled from the spec: register the rgb callback of a device. *)
Definition freenect_set_rgb_callback (d : freenect_device)
    (cb : rgb_cb_ptr) : M unit :=
  update_device d (set_rgb_cb cb).

(** Modelled from the spec: a status-reporting call on a device that
    changes the device, when it succeeds, by [f]. *)
Definition device_call (e : event) (d : freenect_device)
    (f : device_state → device_state) : M Z :=
  log e;;;
  let! s := next_status in
  (if decide (s = 0) then update_device d f else ret tt);;;
  ret s.

(** Modelled from the spec: start rgb. *)
Definition freenect_start_rgb (d : freenect_device) : M Z :=
  device_call (Call_start_rgb d) d (set_rgb_on true).

(** Modelled from the spec: stop rgb. *)
Definition freenect_stop_rgb (d : freenect_device) : M Z :=
  device_call (Call_stop_rgb d) d (set_rgb_on false).

(** Modelled from the spec: start depth. *)
Definition freenect_start_depth (d : freenect_device) : M Z :=
  device_call (Call_start_depth d) d (set_depth_on true).

(** Modelled from the spec: stop depth. *)
Definition freenect_stop_depth (d : freenect_device) : M Z :=
  device_call (Call_stop_depth d) d (set_depth_on false).

(** Modelled from the spec: set tilt degrees. *)
Definition freenect_set_tilt_degs (d : freenect_device) (angle : double)
    : M Z :=
  device_call (Call_set_tilt_degs d) d (set_tilt angle).

(** Modelled from the spec: set LED option. *)
Definition freenect_set_led (d : freenect_device) (o : freenect_led_options)
    : M Z :=
  device_call (Call_set_led d o) d (set_led o).

(** Modelled from the spec: accelerometer reading in physical units. *)
Definition freenect_get_mks_accel (d : freenect_device)
    : M (Z * (double * double * double)) :=
  log (Call_get_mks_accel d);;;
  let! s := next_status in
  let! w := get in
  ret (s, default (PrimFloat.zero, PrimFloat.zero, PrimFloat.zero)
            (dev_accel_mks <$> devices (drv w) !! d)).

(** Modelled from the spec: accelerometer reading in raw units. *)
Definition freenect_get_raw_accel (d : freenect_device)
    : M (Z * (int16_t * int16_t * int16_t)) :=
  log (Call_get_raw_accel d);;;
  let! s := next_status in
  let! w := get in
  ret (s, default (0, 0, 0) (dev_accel_raw <$> devices (drv w) !! d)).

(** Modelled from the spec: thread creation, which may fail; on success
    the identifier of the new thread is written through the first
    argument. *)
Definition pthread_create : M (Z * pthread_t) :=
  log Call_pthread_create;;;
  let! s := next_status in
  let! w := get in
  let t := next_thread w in
  if decide (s = 0) then
    modify (λ w, Build_world (drv w) (heap w) (next_ptr w) (S t) (self w)
                   (oracle w) (trace w));;;
    ret (s, t)
  else ret (s, m_thread (self w)).

(** Modelled from the spec: the wait for the pump thread.  Only the call
    is recorded, and it is taken to return: the thread is not run here
    (its steps are in the section on the pump thread below), and whether
    the wait ends is not decided by this model.  No statement below says
    that the thread leaves [pthread_callback] in a defined way. *)
Definition pthread_join (t : pthread_t) : M unit :=
  log (Call_pthread_join t).

(** ** class FreenectDevice *)

(** Reading a member through [this]: defined only while the object lives. *)
Definition deref (this : ptr) : M FreenectDevice :=
  let! w := get in
  match heap w !! this with
  | Some o => ret o
  | None => throw undefined_behaviour
  end.

(** The pure virtual frame handlers.  The application's override is outside
    the header; its run on the object [this] is recorded in the trace with
    the arguments it receives. *)
Definition DepthCallback (this : ptr) (depth : buffer) (timestamp : uint32_t)
    : M unit :=
  let! _ := deref this in
  log (Run_DepthCallback this depth timestamp).

Definition RGBCallback (this : ptr) (rgb : buffer) (timestamp : uint32_t)
    : M unit :=
  let! _ := deref this in
  log (Run_RGBCallback this rgb timestamp).

(** The static trampolines (lines 87-94). *)
Definition freenect_depth_callback (dev : freenect_device) (depth : buffer)
    (timestamp : uint32_t) : M unit :=
  let! user := freenect_get_user dev in
  match user with
  | Some device => DepthCallback device depth timestamp
  | None => throw undefined_behaviour
  end.

Definition freenect_rgb_callback (dev : freenect_device) (rgb : buffer)
    (timestamp : uint32_t) : M unit :=
  let! user := freenect_get_user dev in
  match user with
  | Some device => RGBCallback device rgb timestamp
  | None => throw undefined_behaviour
  end.

(** Constructor (lines 46-53), run on the storage at [this]. *)
Definition FreenectDevice_ctor (this : ptr) (_ctx : freenect_context)
    (_index : Z) : M unit :=
  let! r := freenect_open_device _ctx _index in
  if decide (r.1 ≠ 0) then throw DeviceOpenError else
  modify (with_heap <[this := Build_FreenectDevice r.2]>);;;
  let! o := deref this in
  freenect_set_user (m_dev o) this;;;
  freenect_set_rgb_format (m_dev o) FREENECT_FORMAT_RGB;;;
  freenect_set_depth_format (m_dev o) FREENECT_FORMAT_11_BIT;;;
  freenect_set_depth_callback (m_dev o) addr_freenect_depth_callback;;;
  freenect_set_rgb_callback (m_dev o) addr_freenect_rgb_callback.

(** Destructor (lines 54-56). *)
Definition FreenectDevice_dtor (this : ptr) : M unit :=
  let! o := deref this in
  let! s := freenect_close_device (m_dev o) in
  if decide (s ≠ 0) then throw DeviceCloseError else ret tt.

Definition startRGB (this : ptr) : M unit :=
  let! o := deref this in
  let! s := freenect_start_rgb (m_dev o) in
  if decide (s ≠ 0) then throw StartRGBError else ret tt.

Definition stopRGB (this : ptr) : M unit :=
  let! o := deref this in
  let! s := freenect_stop_rgb (m_dev o) in
  if decide (s ≠ 0) then throw StopRGBError else ret tt.

Definition startDepth (this : ptr) : M unit :=
  let! o := deref this in
  let! s := freenect_start_depth (m_dev o) in
  if decide (s ≠ 0) then throw StartDepthError else ret tt.

Definition stopDepth (this : ptr) : M unit :=
  let! o := deref this in
  let! s := freenect_stop_depth (m_dev o) in
  if decide (s ≠ 0) then throw StopDepthError else ret tt.

Definition setTiltDegrees (this : ptr) (_angle : double) : M unit :=
  let! o := deref this in
  let! s := freenect_set_tilt_degs (m_dev o) _angle in
  if decide (s ≠ 0) then throw TiltError else ret tt.

Definition setLed (this : ptr) (_option : freenect_led_options) : M unit :=
  let! o := deref this in
  let! s := freenect_set_led (m_dev o) _option in
  if decide (s ≠ 0) then throw LedError else ret tt.

(** The two overloads of [getAccelerometers]; the three reference
    parameters are the returned triple. *)
Definition getAccelerometers_double (this : ptr)
    : M (double * double * double) :=
  let! o := deref this in
  let! r := freenect_get_mks_accel (m_dev o) in
  if decide (r.1 ≠ 0) then throw AccelMksError else ret r.2.

Definition getAccelerometers_int16 (this : ptr)
    : M (int16_t * int16_t * int16_t) :=
  let! o := deref this in
  let! r := freenect_get_raw_accel (m_dev o) in
  if decide (r.1 ≠ 0) then throw AccelRawError else ret r.2.

(** [new T(ctx, index)]: storage at an address no object has, then the
    constructor; when the constructor throws no object comes to exist.
    [T] is the application's subclass of [FreenectDevice]; what its own
    constructor and destructor add is outside the header. *)
Definition new_T (_ctx : freenect_context) (_index : Z) : M ptr :=
  let! w := get in
  let this := next_ptr w in
  modify (λ w, Build_world (drv w) (heap w) (S this) (next_thread w) (self w)
                 (oracle w) (trace w));;;
  FreenectDevice_ctor this _ctx _index;;;
  ret this.

(** [delete p]: the destructor, then the storage is released, also when the
    destructor throws. *)
Definition delete_T (p : ptr) : M unit :=
  finally (FreenectDevice_dtor p) (with_heap (delete p)).

(** ** Event processing in the driver

    Modelled from the spec: see the note on the driver above.  The
    callbacks the driver calls are the trampolines registered with it. *)

(** Modelled from the spec: a call through a registered depth callback. *)
Definition call_depth_cb (cb : depth_cb_ptr) (dev : freenect_device)
    (depth : buffer) (timestamp : uint32_t) : M unit :=
  match cb with
  | addr_freenect_depth_callback => freenect_depth_callback dev depth timestamp
  end.

(** Modelled from the spec: a call through a registered rgb callback. *)
Definition call_rgb_cb (cb : rgb_cb_ptr) (dev : freenect_device)
    (rgb : buffer) (timestamp : uint32_t) : M unit :=
  match cb with
  | addr_freenect_rgb_callback => freenect_rgb_callback dev rgb timestamp
  end.

(** Modelled from the spec: the driver hands one frame to the callback
    registered for its kind, when the device is open and the stream is
    started. *)
Definition deliver (f : frame) : M unit :=
  let! w := get in
  match f with
  | DepthFrame d depth ts =>
      match devices (drv w) !! d with
      | Some st =>
          match dev_depth_on st, dev_depth_cb st with
          | true, Some cb => call_depth_cb cb d depth ts
          | _, _ => ret tt
          end
      | None => ret tt
      end
  | RGBFrame d rgb ts =>
      match devices (drv w) !! d with
      | Some st =>
          match dev_rgb_on st, dev_rgb_cb st with
          | true, Some cb => call_rgb_cb cb d rgb ts
          | _, _ => ret tt
          end
      | None => ret tt
      end
  end.

(** Modelled from the spec: the frames of one batch, in their order. *)
Fixpoint deliver_all (fs : list frame) : M unit :=
  match fs with
  | [] => ret tt
  | f :: fs' => deliver f;;; deliver_all fs'
  end.

(** Modelled from the spec: process one batch of pending events, then
    report a status. *)
Definition freenect_process_events (c : freenect_context) : M Z :=
  log (Call_process_events c);;;
  let! w := get in
  modify (with_drv (with_pending (λ _, [])));;;
  deliver_all (pending (drv w));;;
  next_status.

(** ** class Freenect<T> *)

Definition set_m_ctx (c : freenect_context) (f : Freenect) : Freenect :=
  Build_Freenect c (m_stop f) (m_thread f) (m_devices f).
Definition set_m_stop (b : bool) (f : Freenect) : Freenect :=
  Build_Freenect (m_ctx f) b (m_thread f) (m_devices f).
Definition set_m_thread (t : pthread_t) (f : Freenect) : Freenect :=
  Build_Freenect (m_ctx f) (m_stop f) t (m_devices f).
Definition set_m_devices (m : gmap Z ptr) (f : Freenect) : Freenect :=
  Build_Freenect (m_ctx f) (m_stop f) (m_thread f) m.

(** [std::map::insert]: an entry already stored under the key is kept. *)
Definition std_map_insert (k : Z) (v : ptr) (m : gmap Z ptr) : gmap Z ptr :=
  match m !! k with
  | Some _ => m
  | None => <[k := v]> m
  end.

(** [std::map::at]. *)
Definition std_map_at (k : Z) (m : gmap Z ptr) : M ptr :=
  match m !! k with
  | Some v => ret v
  | None => throw out_of_range
  end.

(** [begin() .. end()]: the entries by increasing key. *)
Definition key_le (a b : Z * ptr) : Prop := a.1 ≤ b.1.
#[global] Instance key_le_dec : RelDecision key_le.
Proof. intros a b. unfold key_le. apply _. Defined.

Definition map_entries (m : gmap Z ptr) : list (Z * ptr) :=
  merge_sort key_le (map_to_list m).

(** Constructor (lines 99-102): the member initialisers, then the body. *)
Definition Freenect_ctor : M unit :=
  modify (with_self (λ f, Build_Freenect (m_ctx f) false (m_thread f) ∅));;;
  let! r := freenect_init in
  modify (with_self (set_m_ctx r.2));;;
  if decide (r.1 ≠ 0) then throw InitError else
  let! t := pthread_create in
  modify (with_self (set_m_thread t.2));;;
  if decide (t.1 ≠ 0) then throw ThreadStartError else ret tt.

(** The loop of the destructor (lines 104-106). *)
Fixpoint delete_each (its : list (Z * ptr)) : M unit :=
  match its with
  | [] => ret tt
  | it :: its' => delete_T it.2;;; delete_each its'
  end.

(** Body of the destructor (lines 104-109). *)
Definition Freenect_dtor_body : M unit :=
  let! w := get in
  delete_each (map_entries (m_devices (self w)));;;
  modify (with_self (set_m_stop true));;;
  log Store_stop;;;
  let! w := get in
  pthread_join (m_thread (self w));;;
  let! s := freenect_shutdown (m_ctx (self w)) in
  if decide (s ≠ 0) then throw ShutdownError else ret tt.

(** The destructor: its body, after which the member [m_devices] is
    destroyed (the map, not the objects its values point to). *)
Definition Freenect_dtor : M unit :=
  finally Freenect_dtor_body (with_self (set_m_devices ∅)).

(** [createDevice] (lines 111-114). *)
Definition createDevice (_index : Z) : M ptr :=
  let! w := get in
  let! p := new_T (m_ctx (self w)) _index in
  modify (with_self (λ f, set_m_devices (std_map_insert _index p (m_devices f)) f));;;
  let! w := get in
  std_map_at _index (m_devices (self w)).

(** [deleteDevice] (lines 115-117). *)
Definition deleteDevice (_index : Z) : M unit :=
  modify (with_self (λ f, set_m_devices (delete _index (m_devices f)) f)).

(** [deviceCount] (lines 118-120). *)
Definition deviceCount : M Z :=
  let! w := get in
  freenect_num_devices (m_ctx (self w)).

(** [operator()] (lines 122-126), the body of the pump thread.  The loop
    need not end, so the run is bounded by [fuel] iterations: [None] says
    the loop was still running when the fuel ran out. *)
Fixpoint operator_call (fuel : nat) (w : world)
    : option (outcome unit * world) :=
  match fuel with
  | O => None
  | S fuel' =>
      if m_stop (self w) then Some (Ok tt, w)
      else
        match freenect_process_events (m_ctx (self w)) w with
        | (Ok s, w') =>
            if decide (s ≠ 0) then Some (Throw EventProcessingError, w')
            else operator_call fuel' w'
        | (Throw e, w') => Some (Throw e, w')
        end
  end.

(** [pthread_callback] (lines 127-130): the start routine of the pump
    thread calls [operator()] on the Context Manager it is given.  The
    function is declared to return [void*] and has no [return] statement:
    when [operator()] returns, control flows off its end, which has no
    defined behaviour.  An exception of [operator()] leaves it as it is. *)
Definition pthread_callback (fuel : nat) (w : world)
    : option (outcome unit * world) :=
  match operator_call fuel w with
  | Some (Ok _, w') => Some (Throw undefined_behaviour, w')
  | Some (Throw e, w') => Some (Throw e, w')
  | None => None
  end.

(** ** The pump thread next to the application threads

    The same loop in small steps, so that the steps of other threads can
    fall between the test of [m_stop] and the call it guards.  [m_stop] is
    [volatile]: every test reads the member, and the model takes the value
    the member has at that step. *)
Inductive pump_pc :=
| AtLoopTest
| InLoopBody
| Returned
| Thrown (e : exn).

Definition pump_step (pc : pump_pc) (w : world) : pump_pc * world :=
  match pc with
  | AtLoopTest => if m_stop (self w) then (Returned, w) else (InLoopBody, w)
  | InLoopBody =>
      match freenect_process_events (m_ctx (self w)) w with
      | (Ok s, w') =>
          if decide (s ≠ 0) then (Thrown EventProcessingError, w')
          else (AtLoopTest, w')
      | (Throw e, w') => (Thrown e, w')
      end
  | Returned => (Returned, w)
  | Thrown e => (Thrown e, w)
  end.

(** What an application thread may ask of a constructed Context Manager
    and of the handles it got from it. *)
Inductive request :=
| Req_createDevice (_index : Z)
| Req_deleteDevice (_index : Z)
| Req_deviceCount
| Req_startRGB (h : ptr)
| Req_stopRGB (h : ptr)
| Req_startDepth (h : ptr)
| Req_stopDepth (h : ptr)
| Req_setTiltDegrees (h : ptr) (_angle : double)
| Req_setLed (h : ptr) (_option : freenect_led_options)
| Req_getAccelerometers_double (h : ptr)
| Req_getAccelerometers_int16 (h : ptr).

(** The world after the request, whether it returned or threw. *)
Definition serve (r : request) (w : world) : world :=
  match r with
  | Req_createDevice i => (createDevice i w).2
  | Req_deleteDevice i => (deleteDevice i w).2
  | Req_deviceCount => (deviceCount w).2
  | Req_startRGB h => (startRGB h w).2
  | Req_stopRGB h => (stopRGB h w).2
  | Req_startDepth h => (startDepth h w).2
  | Req_stopDepth h => (stopDepth h w).2
  | Req_setTiltDegrees h a => (setTiltDegrees h a w).2
  | Req_setLed h o => (setLed h o w).2
  | Req_getAccelerometers_double h => (getAccelerometers_double h w).2
  | Req_getAccelerometers_int16 h => (getAccelerometers_int16 h w).2
  end.

(** Modelled from the spec: the hardware produces a frame; the driver
    queues it for the next batch. *)
Definition frame_arrives (f : frame) (w : world) : world :=
  with_drv (with_pending (λ fs, fs ++ [f])) w.

(** One step of the system while the pump thread runs: a step of the pump
    thread, a request of an application thread, a frame from the hardware,
    and the two kinds of statement the destructor executes before it waits
    for the pump thread: [delete it->second] and [m_stop = true]. *)
Inductive action :=
| Act_pump
| Act_request (r : request)
| Act_frame (f : frame)
| Act_delete (p : ptr)
| Act_store_stop.

Definition step (a : action) (c : pump_pc * world) : pump_pc * world :=
  match a with
  | Act_pump => pump_step c.1 c.2
  | Act_request r => (c.1, serve r c.2)
  | Act_frame f => (c.1, frame_arrives f c.2)
  | Act_delete p => (c.1, (delete_T p c.2).2)
  | Act_store_stop =>
      (c.1, ((modify (with_self (set_m_stop true));;; log Store_stop) c.2).2)
  end.

Definition run_schedule (sched : list action) (c : pump_pc * world)
    : pump_pc * world :=
  foldl (λ c a, step a c) c sched.

(** ** Whole runs of a program

    The calls a program makes over its life, the iterations of the pump
    thread and the arrivals of frames falling between them in any order. *)
Inductive api_call :=
| New_Freenect
| Delete_Freenect
| Request (r : request)
| Pump_iteration
| Frame_arrival (f : frame).

Definition exec (c : api_call) (w : world) : world :=
  match c with
  | New_Freenect => (Freenect_ctor w).2
  | Delete_Freenect => (Freenect_dtor w).2
  | Request r => serve r w
  | Pump_iteration => (freenect_process_events (m_ctx (self w)) w).2
  | Frame_arrival f => frame_arrives f w
  end.

Definition run (prog : list api_call) (w : world) : world :=
  foldl (λ w c, exec c w) w prog.

(** The world before the program has constructed anything: [n] devices
    attached, and [statuses] the status codes the external calls of the run
    will report. *)
Definition boot (n : Z) (statuses : list Z) : world :=
  Build_world (Build_driver ∅ 0%nat ∅ 0%nat n []) ∅ 0%nat 0%nat
    (Build_Freenect 0%nat false 0%nat ∅) statuses [].

(** ** Requests as computations, and sequences of them *)

(** The request as a member-function call whose result is dropped. *)
Definition perform (r : request) : M unit :=
  match r with
  | Req_createDevice i => createDevice i;;; ret tt
  | Req_deleteDevice i => deleteDevice i
  | Req_deviceCount => deviceCount;;; ret tt
  | Req_startRGB h => startRGB h
  | Req_stopRGB h => stopRGB h
  | Req_startDepth h => startDepth h
  | Req_stopDepth h => stopDepth h
  | Req_setTiltDegrees h a => setTiltDegrees h a
  | Req_setLed h o => setLed h o
  | Req_getAccelerometers_double h => getAccelerometers_double h;;; ret tt
  | Req_getAccelerometers_int16 h => getAccelerometers_int16 h;;; ret tt
  end.

(** The calls of [rs] one after the other; the first exception ends the
    sequence. *)
Fixpoint perform_all (rs : list request) : M unit :=
  match rs with
  | [] => ret tt
  | r :: rs' => perform r;;; perform_all rs'
  end.

(** The indices [rs] creates a device at. *)
Definition created (rs : list request) : list Z :=
  omap (λ r, match r with Req_createDevice i => Some i | _ => None end) rs.

(** [i] was created by [rs] and not deleted afterwards. *)
Definition created_not_deleted (rs : list request) (i : Z) : Prop :=
  ∃ before after,
    rs = before ++ Req_createDevice i :: after ∧ Req_deleteDevice i ∉ after.

(** ** Predicates on worlds and computations *)

(** [m] keeps [P], whether it returns or throws. *)
Definition preserves {A} (P : world → Prop) (m : M A) : Prop :=
  ∀ w, P w → P (m w).2.

(** The user pointer the driver holds for device [d]. *)
Definition user_pointer (w : world) (d : freenect_device) : option ptr :=
  devices (drv w) !! d ≫= dev_user.

(** The run of a frame handler that the delivery of [f] leads to: the
    handler of the handle that the user pointer of the frame's device
    names. *)
Definition handler_run (w : world) (f : frame) : list event :=
  match f with
  | DepthFrame d depth ts =>
      match user_pointer w d with
      | Some h => [Run_DepthCallback h depth ts]
      | None => []
      end
  | RGBFrame d rgb ts =>
      match user_pointer w d with
      | Some h => [Run_RGBCallback h rgb ts]
      | None => []
      end
  end.

(** [f] is a frame of a started stream of the device of a living handle. *)
Definition from_living_handle (w : world) (f : frame) : Prop :=
  ∃ h o st,
    heap w !! h = Some o ∧ devices (drv w) !! m_dev o = Some st ∧
    match f with
    | DepthFrame d _ _ => d = m_dev o ∧ dev_depth_on st = true
    | RGBFrame d _ _ => d = m_dev o ∧ dev_rgb_on st = true
    end.

(** Every living handle has an open device whose user pointer is the
    handle and whose callbacks are the trampolines; the two allocators are
    ahead of everything allocated. *)
Record handles_ok (w : world) : Prop := {
  ho_device : ∀ h o, heap w !! h = Some o →
    ∃ st, devices (drv w) !! m_dev o = Some st ∧ dev_user st = Some h ∧
          dev_depth_cb st = Some addr_freenect_depth_callback ∧
          dev_rgb_cb st = Some addr_freenect_rgb_callback;
  ho_next_ptr : ∀ h, is_Some (heap w !! h) → (h < next_ptr w)%nat;
  ho_next_device : ∀ d, is_Some (devices (drv w) !! d) →
    (d < next_device (drv w))%nat
}.

(** [f] changes neither the user pointer nor the callbacks of a device. *)
Definition static_fields_kept (f : device_state → device_state) : Prop :=
  ∀ st, dev_user (f st) = dev_user st ∧
        dev_depth_cb (f st) = dev_depth_cb st ∧
        dev_rgb_cb (f st) = dev_rgb_cb st.

(** The registry holds living handles, each under one key. *)
Record registry_ok (w : world) : Prop := {
  ro_alive : ∀ i h, m_devices (self w) !! i = Some h → is_Some (heap w !! h);
  ro_inj : ∀ i j h, m_devices (self w) !! i = Some h →
    m_devices (self w) !! j = Some h → i = j
}.

Definition Inv (w : world) : Prop := handles_ok w ∧ registry_ok w.

Definition registry_empty (w : world) : Prop := m_devices (self w) = ∅.

(** The heap and the Context Manager object are [h] and [s]. *)
Definition heap_self_are (h : gmap ptr FreenectDevice) (s : Freenect)
    (w : world) : Prop :=
  heap w = h ∧ self w = s.

(** The worlds a program can be in. *)
Definition reachable (w : world) : Prop :=
  ∃ n statuses prog, w = run prog (boot n statuses).

(** ** The order of teardown *)

(** The calls that close the devices of the handles [its] points to. *)
Definition close_calls (hp : gmap ptr FreenectDevice) (its : list (Z * ptr))
    : list event :=
  omap (λ it, (λ o, Call_close_device (m_dev o)) <$> hp !! it.2) its.

(** What the destructor does when nothing goes wrong, in order: close the
    device of every registered handle, set the stop flag, join the pump
    thread, shut the context down. *)
Definition teardown_plan (w : world) : list event :=
  close_calls (heap w) (map_entries (m_devices (self w))) ++
  [Store_stop; Call_pthread_join (m_thread (self w));
   Call_shutdown (m_ctx (self w))].

(** ** Counting on traces and schedules *)

Definition is_process_events (e : event) : bool :=
  match e with Call_process_events _ => true | _ => false end.

(** How often the driver was asked to process events. *)
Definition process_events_calls (t : list event) : nat :=
  length (List.filter is_process_events t).

Definition is_pump (a : action) : bool :=
  match a with Act_pump => true | _ => false end.

(** How many steps the pump thread takes in a schedule. *)
Definition pump_steps (sched : list action) : nat :=
  length (List.filter is_pump sched).

(** The pump thread has left [operator()]. *)
Definition terminated (pc : pump_pc) : Prop :=
  match pc with
  | Returned | Thrown _ => True
  | AtLoopTest | InLoopBody => False
  end.

(** The call the loop is committed to: the test has passed and the call it
    guards is not yet made. *)
Definition calls_owed (pc : pump_pc) : nat :=
  match pc with InLoopBody => 1 | _ => 0 end.

(** The steps the pump thread needs to leave the loop once the flag is
    set. *)
Definition steps_left (pc : pump_pc) : nat :=
  match pc with
  | InLoopBody => 2
  | AtLoopTest => 1
  | Returned | Thrown _ => 0
  end.

(** The trace holds [n] calls to process events. *)
Definition pe_count_is (n : nat) (w : world) : Prop :=
  process_events_calls (trace w) = n.

(** The open devices are exactly [D]. *)
Definition open_devices_are (D : gset freenect_device) (w : world) : Prop :=
  dom (devices (drv w)) = D.

(** ** Surfacing of driver failures *)

(** [op] makes the driver call [call] once and nothing else: it throws [e]
    exactly when the status the call reports is not zero, and otherwise
    returns what the call produced. *)
Definition raises_iff_nonzero {A B} (op : M A) (call : M B) (status : B → Z)
    (value : B → A) (e : exn) (w : world) : Prop :=
  ∃ b w',
    call w = (Ok b, w') ∧
    (op w).2 = w' ∧
    ((op w).1 = Throw e ↔ status b ≠ 0) ∧
    ((op w).1 = Ok (value b) ↔ status b = 0) ∧
    ((op w).1 = Throw e ∨ (op w).1 = Ok (value b)).

(** * Properties *)

(** ** Reasoning about what a computation keeps *)

Section Preserves.
Context (P : world → Prop).

Lemma preserves_ret {A} (a : A) : preserves P (ret a).
Proof. intros w H. exact H. Qed.

Lemma preserves_throw {A} (e : exn) : preserves P (@throw A e).
Proof. intros w H. exact H. Qed.

Lemma preserves_get : preserves P get.
Proof. intros w H. exact H. Qed.

Lemma preserves_bind {A B} (m : M A) (k : A → M B) :
  preserves P m → (∀ a, preserves P (k a)) → preserves P (bind m k).
Proof.
  intros Hm Hk w Hw. unfold bind. specialize (Hm w Hw).
  destruct (m w) as [[a|e] w']; simpl in *; [by apply Hk | done].
Qed.

Lemma preserves_modify (f : world → world) :
  (∀ w, P w → P (f w)) → preserves P (modify f).
Proof. intros Hf w Hw. by apply Hf. Qed.

Lemma preserves_finally {A} (m : M A) (c : world → world) :
  preserves P m → (∀ w, P w → P (c w)) → preserves P (finally m c).
Proof.
  intros Hm Hc w Hw. unfold finally. specialize (Hm w Hw).
  destruct (m w) as [r w']; simpl in *. by apply Hc.
Qed.

Lemma preserves_if {A} (b : bool) (m1 m2 : M A) :
  preserves P m1 → preserves P m2 → preserves P (if b then m1 else m2).
Proof. by destruct b. Qed.

Lemma preserves_decide {A} (Q : Prop) `{Decision Q} (m1 m2 : M A) :
  preserves P m1 → preserves P m2 →
  preserves P (if decide Q then m1 else m2).
Proof. by destruct (decide Q). Qed.
End Preserves.

Lemma handles_ok_ext w w' :
  heap w' = heap w → devices (drv w') = devices (drv w) →
  next_ptr w' = next_ptr w → next_device (drv w') = next_device (drv w) →
  handles_ok w → handles_ok w'.
Proof.
  intros Hh Hd Hp Hn [H1 H2 H3]. split.
  - intros h o. rewrite Hh, Hd. apply H1.
  - intros h. rewrite Hh, Hp. apply H2.
  - intros d. rewrite Hd, Hn. apply H3.
Qed.

Lemma handles_ok_log e : preserves handles_ok (log e).
Proof. apply preserves_modify. intros w. by apply handles_ok_ext. Qed.
Lemma handles_ok_next_status : preserves handles_ok next_status.
Proof. intros w. by apply handles_ok_ext. Qed.


Lemma handles_ok_update_device d f :
  static_fields_kept f → preserves handles_ok (update_device d f).
Proof.
  intros Hf w [H1 H2 H3]. split; simpl.
  - intros h o Ho. destruct (H1 h o Ho) as (st & Hst & Hu & Hd & Hr).
    destruct (decide (d = m_dev o)) as [->|Hne].
    + exists (f st). rewrite lookup_alter_eq, Hst. destruct (Hf st) as (-> & -> & ->). done.
    + exists st. rewrite lookup_alter_ne by done. done.
  - exact H2.
  - intros d'. rewrite lookup_alter_is_Some. apply H3.
Qed.

Lemma handles_ok_device_call e d f :
  static_fields_kept f → preserves handles_ok (device_call e d f).
Proof.
  intros Hf. unfold device_call.
  apply preserves_bind; [apply handles_ok_log|intros _].
  apply preserves_bind; [apply handles_ok_next_status|intros s].
  apply preserves_bind; [|intros _; apply preserves_ret].
  apply preserves_decide; [by apply handles_ok_update_device|apply preserves_ret].
Qed.

Lemma new_T_throw c i w :
  hd 0 (oracle w) ≠ 0 →
  ∃ w', new_T c i w = (Throw DeviceOpenError, w') ∧
        heap w' = heap w ∧ drv w' = drv w ∧ self w' = self w ∧
        next_ptr w' = S (next_ptr w) ∧
        trace w' = trace w ++ [Call_open_device c i] ∧ oracle w' = tl (oracle w).
Proof.
  intros Hs. unfold new_T, FreenectDevice_ctor, freenect_open_device, bind, get, modify, log, next_status, ret, throw. simpl.
  destruct (decide (hd 0 (oracle w) = 0)) as [|_]; [done|]. simpl.
  destruct (decide (hd 0 (oracle w) ≠ 0)); [|done]. 
  eexists; split; [reflexivity|]. simpl. destruct (drv w); done.
Qed.

Lemma new_T_ok c i w :
  hd 0 (oracle w) = 0 →
  ∃ w' st, new_T c i w = (Ok (next_ptr w), w') ∧
        heap w' = <[next_ptr w := Build_FreenectDevice (next_device (drv w))]> (heap w) ∧
        devices (drv w') = <[next_device (drv w) := st]> (devices (drv w)) ∧
        dev_user st = Some (next_ptr w) ∧
        dev_depth_cb st = Some addr_freenect_depth_callback ∧
        dev_rgb_cb st = Some addr_freenect_rgb_callback ∧
        self w' = self w ∧
        next_ptr w' = S (next_ptr w) ∧
        next_device (drv w') = S (next_device (drv w)) ∧
        trace w' = trace w ++ [Call_open_device c i] ∧ oracle w' = tl (oracle w).
Proof.
  intros Hs. unfold new_T, FreenectDevice_ctor, freenect_open_device, bind, get, modify, log, next_status, ret, throw. simpl.
  rewrite Hs. simpl. unfold deref, bind, get, ret; simpl. rewrite lookup_insert_eq. simpl.
  eexists _, (set_rgb_cb addr_freenect_rgb_callback (set_depth_cb addr_freenect_depth_callback
     (set_depth_format FREENECT_FORMAT_11_BIT (set_rgb_format FREENECT_FORMAT_RGB
        (set_user (Some (next_ptr w)) (fresh_device i)))))).
  split; [reflexivity|]. simpl.
  rewrite <- !alter_insert_eq. done.
Qed.

Create HintDb preserves.
#[local] Hint Resolve preserves_ret preserves_throw preserves_get : preserves.

Ltac preserves_go :=
  repeat first
    [ solve [eauto with preserves]
    | apply preserves_bind; [|intros ?]
    | apply preserves_decide
    | apply preserves_finally
    | match goal with
      | |- preserves _ (match ?x with _ => _ end) => destruct x
      end ].

Lemma static_set_rgb_on b : static_fields_kept (set_rgb_on b).
Proof. done. Qed.
Lemma static_set_depth_on b : static_fields_kept (set_depth_on b).
Proof. done. Qed.
Lemma static_set_tilt a : static_fields_kept (set_tilt a).
Proof. done. Qed.
Lemma static_set_led o : static_fields_kept (set_led o).
Proof. done. Qed.

#[local] Hint Resolve handles_ok_log handles_ok_next_status
  handles_ok_device_call static_set_rgb_on static_set_depth_on
  static_set_tilt static_set_led : preserves.
#[local] Hint Extern 1 (preserves handles_ok (modify _)) =>
  apply preserves_modify; intros ?; apply handles_ok_ext; done : preserves.

Lemma handles_ok_deref h : preserves handles_ok (deref h).
Proof. unfold deref. preserves_go. Qed.
#[local] Hint Resolve handles_ok_deref : preserves.

Lemma handles_ok_request_handle :
  ∀ h a o,
    preserves handles_ok (startRGB h) ∧ preserves handles_ok (stopRGB h) ∧
    preserves handles_ok (startDepth h) ∧ preserves handles_ok (stopDepth h) ∧
    preserves handles_ok (setTiltDegrees h a) ∧
    preserves handles_ok (setLed h o) ∧
    preserves handles_ok (getAccelerometers_double h) ∧
    preserves handles_ok (getAccelerometers_int16 h).
Proof.
  intros h a o.
  unfold startRGB, stopRGB, startDepth, stopDepth, setTiltDegrees, setLed,
    getAccelerometers_double, getAccelerometers_int16,
    freenect_start_rgb, freenect_stop_rgb, freenect_start_depth,
    freenect_stop_depth, freenect_set_tilt_degs, freenect_set_led,
    freenect_get_mks_accel, freenect_get_raw_accel.
  split_and!; preserves_go.
Qed.

Lemma handles_ok_deliver f : preserves handles_ok (deliver f).
Proof.
  unfold deliver, call_depth_cb, call_rgb_cb, freenect_depth_callback,
    freenect_rgb_callback, freenect_get_user, DepthCallback, RGBCallback.
  preserves_go.
Qed.

Lemma handles_ok_deliver_all fs : preserves handles_ok (deliver_all fs).
Proof.
  induction fs as [|f fs IH]; simpl; [apply preserves_ret|].
  apply preserves_bind; [apply handles_ok_deliver|done].
Qed.

Lemma handles_ok_process_events c :
  preserves handles_ok (freenect_process_events c).
Proof.
  unfold freenect_process_events.
  pose proof handles_ok_deliver_all. preserves_go.
Qed.

Lemma handles_ok_new_T c i : preserves handles_ok (new_T c i).
Proof.
  intros w Hw. destruct (decide (hd 0 (oracle w) = 0)) as [Hs|Hs].
  - destruct (new_T_ok c i w Hs)
      as (w' & st & -> & Hh & Hd & Hu & Hdc & Hrc & _ & Hp & Hn & _).
    destruct Hw as [H1 H2 H3]. simpl. split.
    + intros h o. rewrite Hh, Hd. intros Ho.
      destruct (decide (next_ptr w = h)) as [<-|Hne].
      * rewrite lookup_insert_eq in Ho. injection Ho as <-. simpl.
        exists st. by rewrite lookup_insert_eq.
      * rewrite lookup_insert_ne in Ho by done.
        destruct (H1 h o Ho) as (st' & Hst' & ?).
        exists st'. split; [|done]. rewrite lookup_insert_ne; [done|].
        intros E. specialize (H3 (m_dev o) (mk_is_Some _ _ Hst')). lia.
    + intros h. rewrite Hh, Hp. intros [o Ho].
      destruct (decide (next_ptr w = h)) as [<-|Hne]; [lia|].
      rewrite lookup_insert_ne in Ho by done.
      specialize (H2 h (mk_is_Some _ _ Ho)). lia.
    + intros d. rewrite Hd, Hn. intros [s' Hs'].
      destruct (decide (next_device (drv w) = d)) as [<-|Hne]; [lia|].
      rewrite lookup_insert_ne in Hs' by done.
      specialize (H3 d (mk_is_Some _ _ Hs')). lia.
  - destruct (new_T_throw c i w Hs) as (w' & -> & Hh & Hd & _ & Hp & _).
    destruct Hw as [H1 H2 H3]. simpl. split.
    + intros h o. rewrite Hh, Hd. apply H1.
    + intros h. rewrite Hh, Hp. intros Ho. specialize (H2 h Ho). lia.
    + intros d. rewrite Hd. apply H3.
Qed.

Lemma delete_T_dead p w :
  heap w !! p = None → delete_T p w = (Throw undefined_behaviour, w).
Proof.
  intros Hp. unfold delete_T, finally, FreenectDevice_dtor, deref, bind, get.
  simpl. rewrite Hp. simpl. unfold with_heap. rewrite delete_id by done.
  by destruct w.
Qed.

Lemma delete_T_alive p o w :
  heap w !! p = Some o →
  ∃ w', delete_T p w =
          (if decide (hd 0 (oracle w) ≠ 0) then Throw DeviceCloseError
           else Ok tt, w') ∧
        heap w' = delete p (heap w) ∧
        devices (drv w') =
          (if decide (hd 0 (oracle w) = 0) then delete (m_dev o) (devices (drv w))
           else devices (drv w)) ∧
        next_ptr w' = next_ptr w ∧ next_device (drv w') = next_device (drv w) ∧
        self w' = self w ∧ oracle w' = tl (oracle w) ∧
        trace w' = trace w ++ [Call_close_device (m_dev o)].
Proof.
  intros Hp.
  unfold delete_T, finally, FreenectDevice_dtor, deref, freenect_close_device,
    bind, get, log, modify, next_status, ret, throw.
  simpl. rewrite Hp. simpl.
  destruct (decide (hd 0 (oracle w) = 0)) as [Hs|Hs]; simpl.
  - rewrite Hs. simpl. eexists; split; [reflexivity|]. done.
  - destruct (decide (hd 0 (oracle w) ≠ 0)); [|done].
    eexists; split; [reflexivity|]. done.
Qed.

Lemma handles_ok_delete_T p : preserves handles_ok (delete_T p).
Proof.
  intros w Hw. destruct (heap w !! p) as [o|] eqn:Hp.
  - destruct (delete_T_alive p o w Hp)
      as (w' & -> & Hh & Hd & Hnp & Hnd & _).
    destruct Hw as [H1 H2 H3]. simpl. split.
    + intros h o'. rewrite Hh, Hd. intros Ho'.
      apply lookup_delete_Some in Ho' as [Hne Ho'].
      destruct (H1 h o' Ho') as (st & Hst & Hu & ?).
      exists st. split; [|done].
      destruct (decide (hd 0 (oracle w) = 0)); [|done].
      rewrite lookup_delete_ne; [done|]. intros E.
      destruct (H1 p o Hp) as (st' & Hst' & Hu' & _).
      rewrite E in Hst'. congruence.
    + intros h. rewrite Hh, Hnp. intros [o' Ho'].
      apply lookup_delete_Some in Ho' as [_ Ho']. by apply H2.
    + intros d. rewrite Hd, Hnd. intros [st Hst]. apply H3.
      destruct (decide (hd 0 (oracle w) = 0)); [|done].
      apply lookup_delete_Some in Hst as [_ Hst]. done.
  - by rewrite delete_T_dead.
Qed.

Lemma registry_ok_ext w w' :
  heap w' = heap w → m_devices (self w') = m_devices (self w) →
  registry_ok w → registry_ok w'.
Proof.
  intros Hh Hm [H1 H2]. split.
  - intros i h. rewrite Hh, Hm. apply H1.
  - intros i j h. rewrite Hm. apply H2.
Qed.

Lemma registry_ok_empty w : m_devices (self w) = ∅ → registry_ok w.
Proof. intros E. split; intros *; rewrite E, lookup_empty; done. Qed.

#[local] Hint Extern 1 (preserves (heap_self_are _ _) (modify _)) =>
  apply preserves_modify; intros ? []; split; done : preserves.

Lemma heap_self_log h s e : preserves (heap_self_are h s) (log e).
Proof. unfold log. preserves_go. Qed.
Lemma heap_self_next_status h s : preserves (heap_self_are h s) next_status.
Proof. intros w []. split; done. Qed.
Lemma heap_self_update_device h s d f :
  preserves (heap_self_are h s) (update_device d f).
Proof. unfold update_device. preserves_go. Qed.
#[local] Hint Resolve heap_self_log heap_self_next_status
  heap_self_update_device : preserves.

Lemma heap_self_device_call h s e d f :
  preserves (heap_self_are h s) (device_call e d f).
Proof. unfold device_call. preserves_go. Qed.
#[local] Hint Resolve heap_self_device_call : preserves.

Lemma heap_self_request_handle hp s :
  ∀ h a o,
    preserves (heap_self_are hp s) (startRGB h) ∧
    preserves (heap_self_are hp s) (stopRGB h) ∧
    preserves (heap_self_are hp s) (startDepth h) ∧
    preserves (heap_self_are hp s) (stopDepth h) ∧
    preserves (heap_self_are hp s) (setTiltDegrees h a) ∧
    preserves (heap_self_are hp s) (setLed h o) ∧
    preserves (heap_self_are hp s) (getAccelerometers_double h) ∧
    preserves (heap_self_are hp s) (getAccelerometers_int16 h).
Proof.
  intros h a o.
  unfold startRGB, stopRGB, startDepth, stopDepth, setTiltDegrees, setLed,
    getAccelerometers_double, getAccelerometers_int16,
    freenect_start_rgb, freenect_stop_rgb, freenect_start_depth,
    freenect_stop_depth, freenect_set_tilt_degs, freenect_set_led,
    freenect_get_mks_accel, freenect_get_raw_accel, deref.
  split_and!; preserves_go.
Qed.

Lemma heap_self_deliver_all h s fs :
  preserves (heap_self_are h s) (deliver_all fs).
Proof.
  induction fs as [|f fs IH]; simpl; [apply preserves_ret|].
  apply preserves_bind; [|done].
  unfold deliver, call_depth_cb, call_rgb_cb, freenect_depth_callback,
    freenect_rgb_callback, freenect_get_user, DepthCallback, RGBCallback,
    deref.
  preserves_go.
Qed.

Lemma heap_self_process_events h s c :
  preserves (heap_self_are h s) (freenect_process_events c).
Proof.
  unfold freenect_process_events.
  pose proof (heap_self_deliver_all h s). preserves_go.
Qed.

Lemma heap_self_deviceCount h s : preserves (heap_self_are h s) deviceCount.
Proof. unfold deviceCount, freenect_num_devices. preserves_go. Qed.

(** [createDevice] and [deleteDevice] on the registry *)
Lemma createDevice_throw i w :
  hd 0 (oracle w) ≠ 0 →
  ∃ w', createDevice i w = (Throw DeviceOpenError, w') ∧
        heap w' = heap w ∧ drv w' = drv w ∧ self w' = self w ∧
        next_ptr w' = S (next_ptr w) ∧
        trace w' = trace w ++ [Call_open_device (m_ctx (self w)) i] ∧
        oracle w' = tl (oracle w).
Proof.
  intros Hs.
  destruct (new_T_throw (m_ctx (self w)) i w Hs) as (w' & Hn & H).
  exists w'. split; [|exact H].
  unfold createDevice, bind, get. simpl. by rewrite Hn.
Qed.

Lemma createDevice_ok i w :
  hd 0 (oracle w) = 0 →
  ∃ w' st,
    createDevice i w =
      (Ok (default (next_ptr w) (m_devices (self w) !! i)), w') ∧
    m_devices (self w') = std_map_insert i (next_ptr w) (m_devices (self w)) ∧
    m_ctx (self w') = m_ctx (self w) ∧ m_stop (self w') = m_stop (self w) ∧
    m_thread (self w') = m_thread (self w) ∧
    heap w' =
      <[next_ptr w := Build_FreenectDevice (next_device (drv w))]> (heap w) ∧
    devices (drv w') = <[next_device (drv w) := st]> (devices (drv w)) ∧
    dev_user st = Some (next_ptr w) ∧
    dev_depth_cb st = Some addr_freenect_depth_callback ∧
    dev_rgb_cb st = Some addr_freenect_rgb_callback ∧
    next_ptr w' = S (next_ptr w) ∧
    next_device (drv w') = S (next_device (drv w)) ∧
    trace w' = trace w ++ [Call_open_device (m_ctx (self w)) i] ∧
    oracle w' = tl (oracle w).
Proof.
  intros Hs.
  destruct (new_T_ok (m_ctx (self w)) i w Hs)
    as (w1 & st & Hn & Hh & Hd & Hu & Hdc & Hrc & Hself & Hp & Hnd & Ht & Ho).
  unfold createDevice, bind, get, modify. simpl. rewrite Hn. simpl.
  rewrite Hself.
  eexists _, st. split.
  - unfold std_map_at, std_map_insert.
    destruct (m_devices (self w) !! i) as [h|] eqn:E; simpl.
    + rewrite E. reflexivity.
    + rewrite lookup_insert_eq. reflexivity.
  - simpl. rewrite Hself. done.
Qed.

Lemma deleteDevice_effect i w :
  deleteDevice i w =
    (Ok tt, with_self (λ f, set_m_devices (delete i (m_devices f)) f) w).
Proof. reflexivity. Qed.

Lemma registry_ok_createDevice i w :
  handles_ok w → registry_ok w → registry_ok (createDevice i w).2.
Proof.
  intros Hh Hr. destruct (decide (hd 0 (oracle w) = 0)) as [Hs|Hs].
  - destruct (createDevice_ok i w Hs)
      as (w' & st & -> & Hm & _ & _ & _ & Hhp & _). simpl.
    destruct Hr as [R1 R2]. destruct Hh as [_ H2 _].
    assert (Hfresh : ∀ j, m_devices (self w) !! j ≠ Some (next_ptr w)).
    { intros j Hj. specialize (H2 _ (R1 _ _ Hj)). lia. }
    split.
    + intros j h. rewrite Hm, Hhp. unfold std_map_insert.
      destruct (m_devices (self w) !! i) eqn:E.
      * intros Hj. destruct (R1 j h Hj) as [o Ho].
        exists o. rewrite lookup_insert_ne; [done|].
        intros <-. by apply (Hfresh j).
      * destruct (decide (i = j)) as [<-|Hne].
        -- rewrite lookup_insert_eq. intros [= <-].
           rewrite lookup_insert_eq. by eexists.
        -- rewrite lookup_insert_ne by done. intros Hj.
           destruct (R1 j h Hj) as [o Ho].
           exists o. rewrite lookup_insert_ne; [done|].
           intros <-. by apply (Hfresh j).
    + intros j k h. rewrite Hm. unfold std_map_insert.
      destruct (m_devices (self w) !! i) eqn:E; [apply R2|].
      destruct (decide (i = j)) as [<-|Hj], (decide (i = k)) as [<-|Hk];
        rewrite ?lookup_insert_eq, ?lookup_insert_ne by done; try done.
      * intros [= <-] Hk'. by destruct (Hfresh k).
      * intros Hj' [= <-]. by destruct (Hfresh j).
      * apply R2.
  - destruct (createDevice_throw i w Hs) as (w' & -> & Hhp & _ & Hself & _).
    simpl. apply (registry_ok_ext w); [done|by rewrite Hself|done].
Qed.

Lemma handles_ok_createDevice i w :
  handles_ok w → handles_ok (createDevice i w).2.
Proof.
  revert w. change (preserves handles_ok (createDevice i)).
  unfold createDevice, std_map_at.
  pose proof handles_ok_new_T. preserves_go.
Qed.

Lemma registry_ok_deleteDevice i w :
  registry_ok w → registry_ok (deleteDevice i w).2.
Proof.
  intros [R1 R2]. split; simpl.
  - intros j h Hj. apply lookup_delete_Some in Hj as [_ Hj]. eauto.
  - intros j k h Hj Hk. apply lookup_delete_Some in Hj as [_ Hj].
    apply lookup_delete_Some in Hk as [_ Hk]. eauto.
Qed.

(** Iteration over the registry *)
Lemma map_entries_perm (m : gmap Z ptr) : map_entries m ≡ₚ map_to_list m.
Proof. apply merge_sort_Permutation. Qed.

Lemma elem_of_map_entries (m : gmap Z ptr) i h :
  (i, h) ∈ map_entries m ↔ m !! i = Some h.
Proof. rewrite map_entries_perm. apply elem_of_map_to_list. Qed.

#[local] Instance key_le_total : Total key_le.
Proof. intros a b. unfold key_le. lia. Qed.

#[local] Instance key_le_trans : Transitive key_le.
Proof. intros a b c. unfold key_le. lia. Qed.

Lemma map_entries_sorted (m : gmap Z ptr) : Sorted key_le (map_entries m).
Proof. apply Sorted_merge_sort; apply _. Qed.

Lemma NoDup_snd_of_inj (l : list (Z * ptr)) :
  NoDup l.*1 →
  (∀ i j h, (i, h) ∈ l → (j, h) ∈ l → i = j) →
  NoDup l.*2.
Proof.
  induction l as [|[i h] l IH]; simpl; [constructor|].
  intros Hnd Hinj. apply NoDup_cons in Hnd as [Hi Hnd].
  apply NoDup_cons. split.
  - intros Hh. apply list_elem_of_fmap in Hh as ([j h'] & Heq & Hin).
    simpl in Heq. subst h'.
    assert (i = j) as <-.
    { apply (Hinj i j h); [left|by right]. }
    apply Hi. apply list_elem_of_fmap. by exists (i, h).
  - apply IH; [done|]. intros a b c Ha Hb.
    apply (Hinj a b c); by right.
Qed.

Lemma map_entries_NoDup_snd w :
  registry_ok w → NoDup (map_entries (m_devices (self w))).*2.
Proof.
  intros [_ R2]. apply NoDup_snd_of_inj.
  - rewrite map_entries_perm. apply NoDup_fst_map_to_list.
  - intros i j h Hi Hj. apply elem_of_map_entries in Hi, Hj. eauto.
Qed.

Lemma close_calls_delete hp p its :
  p ∉ its.*2 → close_calls (delete p hp) its = close_calls hp its.
Proof.
  induction its as [|[i q] its IH]; simpl; [done|].
  intros Hp. apply not_elem_of_cons in Hp as [Hne Hp].
  rewrite lookup_delete_ne by done. by rewrite IH.
Qed.

Lemma nth_S_tl (l : list Z) j : nth (S j) l 0 = nth j (tl l) 0.
Proof. destruct l; [by destruct j|done]. Qed.

Lemma nth_0_hd (l : list Z) : nth 0 l 0 = hd 0 l.
Proof. by destruct l. Qed.

Lemma hd_drop (l : list Z) n : hd 0 (drop n l) = nth n l 0.
Proof.
  revert l. induction n as [|n IH]; intros [|x l]; simpl; done.
Qed.

Lemma delete_each_run its : ∀ w,
  (∀ it, it ∈ its → is_Some (heap w !! it.2)) →
  NoDup its.*2 →
  ∃ k r w',
    delete_each its w = (r, w') ∧
    trace w' = trace w ++ take k (close_calls (heap w) its) ∧
    self w' = self w ∧
    oracle w' = drop k (oracle w) ∧
    (∀ q, heap w !! q = None → heap w' !! q = None) ∧
    (∀ it, it ∈ take k its → heap w' !! it.2 = None) ∧
    match r with
    | Ok _ => k = length its ∧ (∀ j, (j < k)%nat → nth j (oracle w) 0 = 0)
    | Throw e => e = DeviceCloseError ∧ (k ≤ length its)%nat ∧
                 ∃ j, (j < k)%nat ∧ nth j (oracle w) 0 ≠ 0
    end.
Proof.
  induction its as [|[i p] its IH]; intros w Halive Hnd.
  - exists 0%nat, (Ok tt), w. simpl. rewrite app_nil_r.
    split_and!; try done; try (intros; lia).
    intros it Hit. by apply elem_of_nil in Hit.
  - simpl in Hnd. apply NoDup_cons in Hnd as [Hp Hnd].
    destruct (Halive (i, p)) as [o Ho]; [left|]. simpl in Ho.
    destruct (delete_T_alive p o w Ho)
      as (w1 & Hdel & Hh1 & Hd1 & _ & _ & Hs1 & Ho1 & Ht1).
    simpl. unfold bind. rewrite Hdel.
    destruct (decide (hd 0 (oracle w) ≠ 0)) as [Hst|Hst].
    + exists 1%nat, (Throw DeviceCloseError), w1. simpl. rewrite Ho. simpl.
      split_and!.
      * done.
      * done.
      * done.
      * rewrite Ho1. by destruct (oracle w).
      * intros q Hq. rewrite Hh1. by apply lookup_delete_None; right.
      * intros it Hit. rewrite take_0 in Hit.
        apply list_elem_of_singleton in Hit as ->. simpl.
        rewrite Hh1. apply lookup_delete_eq.
      * done.
      * lia.
      * exists 0%nat. split; [lia|]. by rewrite nth_0_hd.
    + assert (hd 0 (oracle w) = 0) as Hz
        by (destruct (decide (hd 0 (oracle w) = 0)); [done|tauto]).
      destruct (IH w1)
        as (k & r & w' & Hrun & Ht & Hs & Hor & Hmono & Hdead & Hr);
        [|done|].
      { intros it Hit. rewrite Hh1. rewrite lookup_delete_ne.
        - apply Halive. by right.
        - intros ->. apply Hp. apply list_elem_of_fmap. by exists it. }
      exists (S k), r, w'. simpl. rewrite Ho. simpl.
      rewrite Hh1, close_calls_delete in Ht by done.
      split_and!.
      * done.
      * rewrite Ht, Ht1, <- app_assoc. reflexivity.
      * congruence.
      * rewrite Hor, Ho1. by destruct (oracle w), k.
      * intros q Hq. apply Hmono. rewrite Hh1.
        by apply lookup_delete_None; right.
      * intros it Hit. apply elem_of_cons in Hit as [->|Hit]; [|by apply Hdead].
        simpl. apply Hmono. rewrite Hh1. apply lookup_delete_eq.
      * destruct r as [[]|e].
        -- destruct Hr as [-> Hr]. split; [done|].
           intros [|j] Hj; [by rewrite nth_0_hd|].
           rewrite nth_S_tl, <- Ho1. apply Hr. lia.
        -- destruct Hr as (-> & Hk & j & Hj & Hnz). split_and!; [done|lia|].
           exists (S j). split; [lia|]. by rewrite nth_S_tl, <- Ho1.
Qed.

Lemma close_calls_length hp its :
  (length (close_calls hp its) ≤ length its)%nat.
Proof.
  induction its as [|it its IH]; simpl; [done|].
  destruct (hp !! it.2); simpl; lia.
Qed.

Lemma Freenect_dtor_run w :
  registry_ok w →
  let n := length (map_entries (m_devices (self w))) in
  ∃ t r w',
    Freenect_dtor w = (r, w') ∧
    trace w' = trace w ++ t ∧
    t `prefix_of` teardown_plan w ∧
    m_devices (self w') = ∅ ∧
    ((r = Throw DeviceCloseError ∧
      ∃ j, (j < n)%nat ∧ nth j (oracle w) 0 ≠ 0) ∨
     (t = teardown_plan w ∧
      m_stop (self w') = true ∧
      (∀ j, (j < n)%nat → nth j (oracle w) 0 = 0) ∧
      (∀ i h, m_devices (self w) !! i = Some h → heap w' !! h = None) ∧
      r = if decide (nth n (oracle w) 0 ≠ 0) then Throw ShutdownError
          else Ok tt)).
Proof.
  intros Hr n.
  destruct (delete_each_run (map_entries (m_devices (self w))) w)
    as (k & r & w1 & Hrun & Ht & Hs & Hor & _ & Hdead & Hres).
  { intros [i h] Hit. apply elem_of_map_entries in Hit.
    by apply (ro_alive w Hr i h). }
  { by apply map_entries_NoDup_snd. }
  unfold Freenect_dtor, finally, Freenect_dtor_body, bind, get. simpl.
  rewrite Hrun. destruct r as [[]|e].
  - destruct Hres as [-> Hz]. fold n in Hz, Hor, Hdead, Ht.
    unfold modify, log, pthread_join, freenect_shutdown, bind, next_status,
      modify, ret. simpl.
    rewrite Hs, Hor, Ht.
    rewrite take_ge by apply close_calls_length.
    rewrite hd_drop.
    destruct (decide (nth n (oracle w) 0 = 0)) as [Hz'|Hnz].
    + rewrite Hz'. simpl. eexists _, _, _. split; [reflexivity|]. simpl.
      split_and!.
      * rewrite <- !app_assoc. reflexivity.
      * done.
      * done.
      * right. split_and!; try done.
        intros i h Hih. apply (Hdead (i, h)).
        rewrite take_ge by done. by apply elem_of_map_entries.
    + simpl. destruct (decide (nth n (oracle w) 0 ≠ 0)); [|done].
      eexists _, _, _. split; [reflexivity|]. simpl.
      split_and!.
      * rewrite <- !app_assoc. reflexivity.
      * done.
      * done.
      * right. split_and!; try done.
        intros i h Hih. apply (Hdead (i, h)).
        rewrite take_ge by done. by apply elem_of_map_entries.
  - destruct Hres as (-> & Hk & j & Hj & Hnz).
    eexists _, _, _. split; [reflexivity|]. simpl. split_and!.
    + exact Ht.
    + unfold teardown_plan. etrans; [apply prefix_take|]. by apply prefix_app_r.
    + done.
    + left. split; [done|]. exists j. split; [|done]. unfold n. lia.
Qed.

Lemma handles_ok_delete_each its : preserves handles_ok (delete_each its).
Proof.
  induction its as [|it its IH]; simpl; [apply preserves_ret|].
  apply preserves_bind; [apply handles_ok_delete_T|done].
Qed.

Lemma handles_ok_Freenect_dtor : preserves handles_ok Freenect_dtor.
Proof.
  unfold Freenect_dtor, Freenect_dtor_body, pthread_join, freenect_shutdown.
  pose proof handles_ok_delete_each. preserves_go.
  intros w. by apply handles_ok_ext.
Qed.

Lemma handles_ok_Freenect_ctor : preserves handles_ok Freenect_ctor.
Proof.
  unfold Freenect_ctor, freenect_init, pthread_create. preserves_go.
Qed.

Lemma registry_empty_Freenect_dtor w :
  m_devices (self (Freenect_dtor w).2) = ∅.
Proof. unfold Freenect_dtor, finally. by destruct (Freenect_dtor_body w). Qed.

#[local] Hint Extern 1 (preserves registry_empty (modify _)) =>
  apply preserves_modify; unfold registry_empty; intros ? ?; done : preserves.

Lemma registry_empty_Freenect_ctor w :
  m_devices (self (Freenect_ctor w).2) = ∅.
Proof.
  unfold Freenect_ctor, bind at 1. simpl.
  set (w0 := with_self _ w).
  assert (registry_empty w0) as H0 by done.
  revert H0. generalize w0. clear. 
  change (preserves registry_empty
    (let! r := freenect_init in
     modify (with_self (set_m_ctx r.2));;;
     (if decide (r.1 ≠ 0) then throw InitError
      else let! t := pthread_create in
           modify (with_self (set_m_thread t.2));;;
           (if decide (t.1 ≠ 0) then throw ThreadStartError else ret tt)))).
  unfold freenect_init, pthread_create, log, next_status.
  preserves_go.
  all: try (intros ? ?; done).
Qed.

Lemma Inv_boot n statuses : Inv (boot n statuses).
Proof.
  split; [split|apply registry_ok_empty]; simpl; try done.
  all: intros ? [? H]; by rewrite lookup_empty in H.
Qed.

Lemma registry_ok_of_heap_self {A} (m : M A) w :
  (∀ h s, preserves (heap_self_are h s) m) →
  registry_ok w → registry_ok (m w).2.
Proof.
  intros Hm Hr. destruct (Hm (heap w) (self w) w) as [Hh Hs]; [done|].
  apply (registry_ok_ext w); [done|by rewrite Hs|done].
Qed.

Lemma Inv_serve r w : Inv w → Inv (serve r w).
Proof.
  intros [Hh Hr].
  destruct r as [i|i| |h|h|h|h|h a|h o|h|h]; unfold serve.
  - split; [by apply handles_ok_createDevice|by apply registry_ok_createDevice].
  - split; [|by apply registry_ok_deleteDevice].
    revert Hh. by apply handles_ok_ext.
  - split.
    + clear Hr. revert w Hh. change (preserves handles_ok deviceCount).
      unfold deviceCount, freenect_num_devices. preserves_go.
    + apply registry_ok_of_heap_self; [|done].
      intros; apply heap_self_deviceCount.
  - split; [by apply (handles_ok_request_handle h PrimFloat.zero LED_OFF)|].
    apply registry_ok_of_heap_self; [|done].
    intros; by apply (heap_self_request_handle _ _ h PrimFloat.zero LED_OFF).
  - split; [by apply (handles_ok_request_handle h PrimFloat.zero LED_OFF)|].
    apply registry_ok_of_heap_self; [|done].
    intros; by apply (heap_self_request_handle _ _ h PrimFloat.zero LED_OFF).
  - split; [by apply (handles_ok_request_handle h PrimFloat.zero LED_OFF)|].
    apply registry_ok_of_heap_self; [|done].
    intros; by apply (heap_self_request_handle _ _ h PrimFloat.zero LED_OFF).
  - split; [by apply (handles_ok_request_handle h PrimFloat.zero LED_OFF)|].
    apply registry_ok_of_heap_self; [|done].
    intros; by apply (heap_self_request_handle _ _ h PrimFloat.zero LED_OFF).
  - split; [by apply (handles_ok_request_handle h a LED_OFF)|].
    apply registry_ok_of_heap_self; [|done].
    intros; by apply (heap_self_request_handle _ _ h a LED_OFF).
  - split; [by apply (handles_ok_request_handle h PrimFloat.zero o)|].
    apply registry_ok_of_heap_self; [|done].
    intros; by apply (heap_self_request_handle _ _ h PrimFloat.zero o).
  - split; [by apply (handles_ok_request_handle h PrimFloat.zero LED_OFF)|].
    apply registry_ok_of_heap_self; [|done].
    intros; by apply (heap_self_request_handle _ _ h PrimFloat.zero LED_OFF).
  - split; [by apply (handles_ok_request_handle h PrimFloat.zero LED_OFF)|].
    apply registry_ok_of_heap_self; [|done].
    intros; by apply (heap_self_request_handle _ _ h PrimFloat.zero LED_OFF).
Qed.

Lemma Inv_exec c w : Inv w → Inv (exec c w).
Proof.
  intros [Hh Hr]. destruct c as [| |r| |f]; unfold exec.
  - split; [by apply handles_ok_Freenect_ctor|].
    apply registry_ok_empty, registry_empty_Freenect_ctor.
  - split; [by apply handles_ok_Freenect_dtor|].
    apply registry_ok_empty, registry_empty_Freenect_dtor.
  - by apply Inv_serve.
  - split; [by apply handles_ok_process_events|].
    apply registry_ok_of_heap_self; [|done].
    intros; apply heap_self_process_events.
  - split; [revert Hh; by apply handles_ok_ext|].
    revert Hr; by apply registry_ok_ext.
Qed.

Lemma Inv_run prog : ∀ w, Inv w → Inv (run prog w).
Proof.
  induction prog as [|c prog IH]; intros w Hw; [done|].
  apply IH. by apply Inv_exec.
Qed.

Lemma reachable_Inv w : reachable w → Inv w.
Proof. intros (n & st & prog & ->). apply Inv_run, Inv_boot. Qed.

Lemma open_device_status c i w :
  ∃ d w1, freenect_open_device c i w = (Ok (hd 0 (oracle w), d), w1).
Proof.
  unfold freenect_open_device, bind, log, modify, next_status, get, ret.
  simpl. destruct (decide (hd 0 (oracle w) = 0)); simpl; eauto.
Qed.

(** C5: when the driver cannot open the device at the index, [createDevice]
    throws the open error and the registry, the heap of handles and the
    driver's devices are what they were. *)
Theorem createDevice_open_failure (_index : Z) (w w1 : world) (s : Z)
    (d : freenect_device) :
  freenect_open_device (m_ctx (self w)) _index w = (Ok (s, d), w1) →
  s ≠ 0 →
  (createDevice _index w).1 = Throw DeviceOpenError ∧
  m_devices (self (createDevice _index w).2) = m_devices (self w) ∧
  heap (createDevice _index w).2 = heap w ∧
  devices (drv (createDevice _index w).2) = devices (drv w).
Proof.
  intros Hopen Hs.
  destruct (open_device_status (m_ctx (self w)) _index w) as (d' & w1' & E).
  rewrite E in Hopen. injection Hopen as <- _ _.
  destruct (createDevice_throw _index w Hs)
    as (w' & -> & Hh & Hd & Hself & _).
  simpl. by rewrite Hh, Hd, Hself.
Qed.

Lemma createDevice_open_failure_witness :
  let w := run [New_Freenect; Request (Req_createDevice 0)] (boot 1 [0; 0; 0; -1]) in
  (createDevice 7 w).1 = Throw DeviceOpenError ∧
  m_devices (self (createDevice 7 w).2) = m_devices (self w) ∧
  heap (createDevice 7 w).2 = heap w ∧
  devices (drv (createDevice 7 w).2) = devices (drv w).
Proof.
  intros w.
  apply (createDevice_open_failure 7 w
           (freenect_open_device (m_ctx (self w)) 7 w).2 (-1) 1%nat).
  - vm_compute. reflexivity.
  - lia.
Defined.

(** C10: [createDevice] at an index that already has an entry, when the
    driver opens a device again: the registry is unchanged, the reference
    returned is the handle registered before, and the handle just
    constructed is another object, alive and in no entry. *)
Theorem createDevice_existing_index (_index : Z) (w w1 : world) (old : ptr)
    (d : freenect_device) :
  reachable w →
  m_devices (self w) !! _index = Some old →
  freenect_open_device (m_ctx (self w)) _index w = (Ok (0, d), w1) →
  let w' := (createDevice _index w).2 in
  (createDevice _index w).1 = Ok old ∧
  m_devices (self w') = m_devices (self w) ∧
  heap w !! next_ptr w = None ∧
  heap w' !! next_ptr w = Some (Build_FreenectDevice d) ∧
  next_ptr w ≠ old ∧
  heap w' !! old = heap w !! old ∧
  (∀ j, m_devices (self w') !! j ≠ Some (next_ptr w)).
Proof.
  intros Hreach Hold Hopen w'.
  destruct (reachable_Inv w Hreach) as [[_ H2 _] [R1 _]].
  destruct (open_device_status (m_ctx (self w)) _index w) as (d' & w1' & E).
  rewrite E in Hopen. injection Hopen as Hs Hd _.
  assert (Hd' : d = next_device (drv w)).
  { revert E. unfold freenect_open_device, bind, log, modify, next_status,
      get, ret. simpl. rewrite Hs. simpl. intros [= <- _]. done. }
  destruct (createDevice_ok _index w Hs)
    as (w2 & st & Hc & Hm & _ & _ & _ & Hh & _).
  subst w'. rewrite Hc. simpl.
  assert (Hfresh : ∀ j, m_devices (self w) !! j ≠ Some (next_ptr w)).
  { intros j Hj. specialize (H2 _ (R1 _ _ Hj)). lia. }
  assert (Hm' : m_devices (self w2) = m_devices (self w)).
  { rewrite Hm. unfold std_map_insert. by rewrite Hold. }
  split_and!.
  - by rewrite Hold.
  - done.
  - destruct (heap w !! next_ptr w) eqn:En; [|done].
    specialize (H2 _ (mk_is_Some _ _ En)). lia.
  - rewrite Hh, lookup_insert_eq, Hd'. done.
  - intros En. apply (Hfresh _index). by rewrite En.
  - rewrite Hh, lookup_insert_ne; [done|].
    intros En. apply (Hfresh _index). by rewrite En.
  - intros j. rewrite Hm'. apply Hfresh.
Qed.

Lemma reachable_run prog n statuses : reachable (run prog (boot n statuses)).
Proof. by exists n, statuses, prog. Qed.

Lemma createDevice_existing_index_witness :
  let w := run [New_Freenect; Request (Req_createDevice 0)] (boot 1 []) in
  let w' := (createDevice 0 w).2 in
  (createDevice 0 w).1 = Ok 0%nat ∧
  m_devices (self w') = m_devices (self w) ∧
  heap w !! next_ptr w = None ∧
  heap w' !! next_ptr w = Some (Build_FreenectDevice 1%nat) ∧
  next_ptr w ≠ 0%nat ∧
  heap w' !! 0%nat = heap w !! 0%nat ∧
  (∀ j, m_devices (self w') !! j ≠ Some (next_ptr w)).
Proof.
  intros w.
  apply (createDevice_existing_index 0 w
           (freenect_open_device (m_ctx (self w)) 0 w).2 0%nat 1%nat).
  - apply reachable_run.
  - vm_compute. reflexivity.
  - vm_compute. reflexivity.
Defined.

(** C1 (the code departs from the claim): after [createDevice 0] has
    succeeded, [deleteDevice 0] removes the entry, yet the handle it
    pointed to is still alive, its driver device is still open, and the
    driver's close call was never made.  For an index that has no entry,
    [deleteDevice] changes nothing. *)
Theorem deleteDevice_does_not_destroy :
  let w := run [New_Freenect; Request (Req_createDevice 0)] (boot 1 []) in
  let w' := (deleteDevice 0 w).2 in
  m_devices (self w) !! 0 = Some 0%nat ∧
  m_devices (self w') !! 0 = None ∧
  heap w' !! 0%nat = Some (Build_FreenectDevice 0%nat) ∧
  is_Some (devices (drv w') !! 0%nat) ∧
  trace w' = trace w ∧
  (Call_close_device 0%nat ∉ trace w') ∧
  (deleteDevice 5 w).2 = w.
Proof.
  intros w w'.
  assert (Ht : trace w' =
            [Call_init; Call_pthread_create; Call_open_device 0%nat 0])
    by (vm_compute; reflexivity).
  split_and!.
  - vm_compute. reflexivity.
  - vm_compute. reflexivity.
  - vm_compute. reflexivity.
  - vm_compute. by eexists.
  - rewrite Ht. vm_compute. reflexivity.
  - rewrite Ht. intros H.
    repeat (apply elem_of_cons in H as [H|H]; [discriminate H|]).
    by apply elem_of_nil in H.
  - vm_compute. reflexivity.
Qed.

(** What [deleteDevice] does in general: the entry goes, nothing else
    changes. *)
Lemma deleteDevice_only_erases i w :
  (deleteDevice i w).1 = Ok tt ∧
  m_devices (self (deleteDevice i w).2) = delete i (m_devices (self w)) ∧
  heap (deleteDevice i w).2 = heap w ∧
  drv (deleteDevice i w).2 = drv w ∧
  trace (deleteDevice i w).2 = trace w.
Proof. done. Qed.

Lemma deleteDevice_absent i w :
  m_devices (self w) !! i = None → (deleteDevice i w).2 = w.
Proof.
  intros Hi. simpl. unfold with_self, set_m_devices.
  rewrite delete_id by done. by destruct w as [? ? ? ? []].
Qed.

(** C2 (the code departs from the claim): the driver initialises the
    context and [pthread_create] reports [11]; the constructor throws the
    thread-start error while the context is still initialised in the driver,
    and the driver's shutdown call was never made. *)
Theorem Freenect_ctor_leaks_context :
  let r := Freenect_ctor (boot 1 [0; 11]) in
  r.1 = Throw ThreadStartError ∧
  m_ctx (self r.2) ∈ contexts (drv r.2) ∧
  trace r.2 = [Call_init; Call_pthread_create] ∧
  Call_shutdown (m_ctx (self r.2)) ∉ trace r.2.
Proof.
  intros r.
  assert (Ht : trace r.2 = [Call_init; Call_pthread_create])
    by (vm_compute; reflexivity).
  split_and!.
  - vm_compute. reflexivity.
  - apply (bool_decide_unpack _). vm_compute. exact I.
  - exact Ht.
  - rewrite Ht. intros H.
    repeat (apply elem_of_cons in H as [H|H]; [discriminate H|]).
    by apply elem_of_nil in H.
Qed.

(** A wrapper of the shape all fallible handle operations have. *)
Lemma wrapper_raises_iff_nonzero {A B} (callf : freenect_device → M B)
    (status : B → Z) (value : B → A) (e : exn) (this : ptr)
    (o : FreenectDevice) (w : world) :
  heap w !! this = Some o →
  (∃ b w', callf (m_dev o) w = (Ok b, w')) →
  raises_iff_nonzero
    (let! o := deref this in
     let! b := callf (m_dev o) in
     if decide (status b ≠ 0) then throw e else ret (value b))
    (callf (m_dev o)) status value e w.
Proof.
  intros Ho (b & w' & Hcall). exists b, w'. split; [done|].
  unfold deref, bind, get. simpl. rewrite Ho. simpl. rewrite Hcall.
  destruct (decide (status b ≠ 0)) as [Hs|Hs]; simpl.
  - split_and!.
    + done.
    + done.
    + split; [discriminate|]. intros Hz. by destruct Hs.
    + by left.
  - split_and!.
    + done.
    + split; [discriminate|]. intros Hnz. by destruct Hs.
    + split; [|done]. intros _.
      destruct (decide (status b = 0)); [done|]. by destruct Hs.
    + by right.
Qed.

Lemma device_call_returns e d f w :
  ∃ b w', device_call e d f w = (Ok b, w').
Proof.
  unfold device_call, bind, log, modify, next_status, ret. simpl.
  destruct (decide (hd 0 (oracle w) = 0)); simpl; eauto.
Qed.

(** C9: each of the eight fallible operations of a living handle makes its
    driver call once and throws its own error exactly when the status is
    not zero; otherwise it returns (the accelerometer reads with the values
    the driver produced).  The world after the operation is the world after
    that one driver call: nothing is retried and nothing else is done. *)
Theorem handle_operations_surface_failures (this : ptr) (o : FreenectDevice)
    (_angle : double) (_option : freenect_led_options) (w : world) :
  heap w !! this = Some o →
  raises_iff_nonzero (startRGB this) (freenect_start_rgb (m_dev o))
    (λ s, s) (λ _, tt) StartRGBError w ∧
  raises_iff_nonzero (stopRGB this) (freenect_stop_rgb (m_dev o))
    (λ s, s) (λ _, tt) StopRGBError w ∧
  raises_iff_nonzero (startDepth this) (freenect_start_depth (m_dev o))
    (λ s, s) (λ _, tt) StartDepthError w ∧
  raises_iff_nonzero (stopDepth this) (freenect_stop_depth (m_dev o))
    (λ s, s) (λ _, tt) StopDepthError w ∧
  raises_iff_nonzero (setTiltDegrees this _angle)
    (freenect_set_tilt_degs (m_dev o) _angle)
    (λ s, s) (λ _, tt) TiltError w ∧
  raises_iff_nonzero (setLed this _option)
    (freenect_set_led (m_dev o) _option)
    (λ s, s) (λ _, tt) LedError w ∧
  raises_iff_nonzero (getAccelerometers_double this)
    (freenect_get_mks_accel (m_dev o)) fst snd AccelMksError w ∧
  raises_iff_nonzero (getAccelerometers_int16 this)
    (freenect_get_raw_accel (m_dev o)) fst snd AccelRawError w.
Proof.
  intros Ho. split_and!.
  - apply (wrapper_raises_iff_nonzero freenect_start_rgb); [done|].
    apply device_call_returns.
  - apply (wrapper_raises_iff_nonzero freenect_stop_rgb); [done|].
    apply device_call_returns.
  - apply (wrapper_raises_iff_nonzero freenect_start_depth); [done|].
    apply device_call_returns.
  - apply (wrapper_raises_iff_nonzero freenect_stop_depth); [done|].
    apply device_call_returns.
  - apply (wrapper_raises_iff_nonzero
             (λ d, freenect_set_tilt_degs d _angle)); [done|].
    apply device_call_returns.
  - apply (wrapper_raises_iff_nonzero
             (λ d, freenect_set_led d _option)); [done|].
    apply device_call_returns.
  - apply (wrapper_raises_iff_nonzero freenect_get_mks_accel); [done|].
    unfold freenect_get_mks_accel, bind, log, modify, next_status, get, ret.
    simpl. eauto.
  - apply (wrapper_raises_iff_nonzero freenect_get_raw_accel); [done|].
    unfold freenect_get_raw_accel, bind, log, modify, next_status, get, ret.
    simpl. eauto.
Qed.

Lemma handle_operations_surface_failures_witness :
  let w := run [New_Freenect; Request (Req_createDevice 0)]
             (boot 1 [0; 0; 0; 3]) in
  let o := Build_FreenectDevice 0%nat in
  raises_iff_nonzero (startRGB 0%nat) (freenect_start_rgb (m_dev o))
    (λ s, s) (λ _, tt) StartRGBError w ∧
  raises_iff_nonzero (stopRGB 0%nat) (freenect_stop_rgb (m_dev o))
    (λ s, s) (λ _, tt) StopRGBError w ∧
  raises_iff_nonzero (startDepth 0%nat) (freenect_start_depth (m_dev o))
    (λ s, s) (λ _, tt) StartDepthError w ∧
  raises_iff_nonzero (stopDepth 0%nat) (freenect_stop_depth (m_dev o))
    (λ s, s) (λ _, tt) StopDepthError w ∧
  raises_iff_nonzero (setTiltDegrees 0%nat PrimFloat.one)
    (freenect_set_tilt_degs (m_dev o) PrimFloat.one)
    (λ s, s) (λ _, tt) TiltError w ∧
  raises_iff_nonzero (setLed 0%nat LED_RED)
    (freenect_set_led (m_dev o) LED_RED)
    (λ s, s) (λ _, tt) LedError w ∧
  raises_iff_nonzero (getAccelerometers_double 0%nat)
    (freenect_get_mks_accel (m_dev o)) fst snd AccelMksError w ∧
  raises_iff_nonzero (getAccelerometers_int16 0%nat)
    (freenect_get_raw_accel (m_dev o)) fst snd AccelRawError w.
Proof.
  intros w o.
  apply (handle_operations_surface_failures 0%nat o PrimFloat.one LED_RED w).
  vm_compute. reflexivity.
Defined.

(** C8: in every world a program can reach, whatever the order of its
    calls, of the pump thread's iterations and of frame arrivals, and
    whatever the driver reports, the user pointer of the device of every
    living handle is that handle. *)
Theorem user_pointer_is_handle (n : Z) (statuses : list Z)
    (prog : list api_call) (h : ptr) (o : FreenectDevice) :
  let w := run prog (boot n statuses) in
  heap w !! h = Some o →
  user_pointer w (m_dev o) = Some h.
Proof.
  intros w Ho.
  destruct (Inv_run prog _ (Inv_boot n statuses)) as [[H1 _ _] _].
  destruct (H1 h o Ho) as (st & Hst & Hu & _).
  unfold user_pointer, w. by rewrite Hst.
Qed.

Lemma user_pointer_is_handle_witness :
  let w := run [New_Freenect; Request (Req_createDevice 4);
                Request (Req_createDevice 4); Request (Req_startRGB 0%nat);
                Request (Req_deleteDevice 4); Pump_iteration]
             (boot 2 []) in
  heap w !! 1%nat = Some (Build_FreenectDevice 1%nat) ∧
  user_pointer w 1%nat = Some 1%nat.
Proof.
  intros w. split.
  - vm_compute. reflexivity.
  - apply (user_pointer_is_handle 2 []
             [New_Freenect; Request (Req_createDevice 4);
              Request (Req_createDevice 4); Request (Req_startRGB 0%nat);
              Request (Req_deleteDevice 4); Pump_iteration]
             1%nat (Build_FreenectDevice 1%nat)).
    vm_compute. reflexivity.
Defined.

(** The constructor sets the pointer: right after a successful
    [createDevice] the new handle is alive and its device points at it. *)
Lemma user_pointer_set_at_construction i w :
  hd 0 (oracle w) = 0 →
  let w' := (createDevice i w).2 in
  heap w' !! next_ptr w = Some (Build_FreenectDevice (next_device (drv w))) ∧
  user_pointer w' (next_device (drv w)) = Some (next_ptr w).
Proof.
  intros Hs. destruct (createDevice_ok i w Hs)
    as (w2 & st & -> & _ & _ & _ & _ & Hh & Hd & Hu & _).
  simpl. unfold user_pointer. rewrite Hh, Hd, !lookup_insert_eq. done.
Qed.

(** C6: in every reachable world, for every living handle, the callbacks
    registered for its device are the two trampolines; the trampoline,
    called for that device with a buffer and a timestamp, gets the handle
    back from the user pointer and runs that handle's frame handler once,
    with that buffer and that timestamp, and does nothing else; and so does
    the driver when it delivers a frame of a started stream. *)
Theorem trampoline_dispatch (n : Z) (statuses : list Z)
    (prog : list api_call) (h : ptr) (o : FreenectDevice) (buf : buffer)
    (timestamp : uint32_t) :
  let w := run prog (boot n statuses) in
  heap w !! h = Some o →
  freenect_get_user (m_dev o) w = (Ok (Some h), w) ∧
  freenect_depth_callback (m_dev o) buf timestamp w =
    (Ok tt, with_trace (λ t, t ++ [Run_DepthCallback h buf timestamp]) w) ∧
  freenect_rgb_callback (m_dev o) buf timestamp w =
    (Ok tt, with_trace (λ t, t ++ [Run_RGBCallback h buf timestamp]) w) ∧
  ∃ st, devices (drv w) !! m_dev o = Some st ∧
    dev_depth_cb st = Some addr_freenect_depth_callback ∧
    dev_rgb_cb st = Some addr_freenect_rgb_callback ∧
    (dev_depth_on st = true →
     deliver (DepthFrame (m_dev o) buf timestamp) w =
       (Ok tt, with_trace (λ t, t ++ [Run_DepthCallback h buf timestamp]) w)) ∧
    (dev_rgb_on st = true →
     deliver (RGBFrame (m_dev o) buf timestamp) w =
       (Ok tt, with_trace (λ t, t ++ [Run_RGBCallback h buf timestamp]) w)).
Proof.
  intros w. generalize (Inv_run prog _ (Inv_boot n statuses)).
  fold w. generalize w. clear. intros w [[H1 _ _] _] Ho.
  destruct (H1 h o Ho) as (st & Hst & Hu & Hdc & Hrc).
  assert (Hget : freenect_get_user (m_dev o) w = (Ok (Some h), w)).
  { unfold freenect_get_user, bind, get, ret. simpl. by rewrite Hst, <- Hu. }
  assert (Hd : freenect_depth_callback (m_dev o) buf timestamp w =
    (Ok tt, with_trace (λ t, t ++ [Run_DepthCallback h buf timestamp]) w)).
  { unfold freenect_depth_callback, bind at 1. rewrite Hget.
    unfold DepthCallback, deref, bind, get. simpl. by rewrite Ho. }
  assert (Hr : freenect_rgb_callback (m_dev o) buf timestamp w =
    (Ok tt, with_trace (λ t, t ++ [Run_RGBCallback h buf timestamp]) w)).
  { unfold freenect_rgb_callback, bind at 1. rewrite Hget.
    unfold RGBCallback, deref, bind, get. simpl. by rewrite Ho. }
  split_and!; try done.
  exists st. split_and!; try done.
  - intros Hon. unfold deliver, bind, get. simpl.
    rewrite Hst, Hon, Hdc. exact Hd.
  - intros Hon. unfold deliver, bind, get. simpl.
    rewrite Hst, Hon, Hrc. exact Hr.
Qed.

Lemma trampoline_dispatch_witness :
  let w := run [New_Freenect; Request (Req_createDevice 0);
                Request (Req_startDepth 0%nat)] (boot 1 []) in
  heap w !! 0%nat = Some (Build_FreenectDevice 0%nat) ∧
  freenect_depth_callback 0%nat 77 100 w =
    (Ok tt, with_trace (λ t, t ++ [Run_DepthCallback 0%nat 77 100]) w) ∧
  deliver (DepthFrame 0%nat 77 100) w =
    (Ok tt, with_trace (λ t, t ++ [Run_DepthCallback 0%nat 77 100]) w).
Proof.
  intros w.
  assert (Ho : heap w !! 0%nat = Some (Build_FreenectDevice 0%nat))
    by (vm_compute; reflexivity).
  destruct (trampoline_dispatch 1 []
              [New_Freenect; Request (Req_createDevice 0);
               Request (Req_startDepth 0%nat)]
              0%nat (Build_FreenectDevice 0%nat) 77 100 Ho)
    as (_ & Hd & _ & st & Hst & _ & _ & Hdel & _).
  split_and!; [exact Ho|exact Hd|].
  apply Hdel.
  assert (Hst' : devices (drv w) !! 0%nat ≫= (λ s, Some (dev_depth_on s))
                 = Some true) by (vm_compute; reflexivity).
  change (devices (drv w) !! 0%nat = Some st) in Hst.
  rewrite Hst in Hst'. by injection Hst'.
Defined.

Lemma deliver_to_living_handle w w' f :
  handles_ok w → from_living_handle w f →
  heap w' = heap w → devices (drv w') = devices (drv w) →
  deliver f w' = (Ok tt, with_trace (λ t, t ++ handler_run w f) w') ∧
  length (handler_run w f) = 1%nat.
Proof.
  intros [H1 _ _] (h & o & st & Ho & Hst & Hf) Hh Hd.
  destruct (H1 h o Ho) as (st' & Hst' & Hu & Hdc & Hrc).
  rewrite Hst in Hst'. injection Hst' as <-.
  destruct f as [d depth ts|d rgb ts]; destruct Hf as [-> Hon]; simpl;
    unfold user_pointer; rewrite Hst; simpl; rewrite Hu; (split; [|done]);
    unfold deliver, bind, get; simpl; rewrite Hd, Hst, Hon.
  - rewrite Hdc. unfold call_depth_cb, freenect_depth_callback,
      freenect_get_user, DepthCallback, deref, bind, get, ret. simpl.
    rewrite Hd, Hst. simpl. rewrite Hu, Hh, Ho. reflexivity.
  - rewrite Hrc. unfold call_rgb_cb, freenect_rgb_callback,
      freenect_get_user, RGBCallback, deref, bind, get, ret. simpl.
    rewrite Hd, Hst. simpl. rewrite Hu, Hh, Ho. reflexivity.
Qed.

Lemma with_trace_id w : with_trace (λ t, t ++ []) w = w.
Proof. unfold with_trace. rewrite app_nil_r. by destruct w. Qed.

Lemma with_trace_app l1 l2 w :
  with_trace (λ t, t ++ l2) (with_trace (λ t, t ++ l1) w) =
  with_trace (λ t, t ++ l1 ++ l2) w.
Proof. unfold with_trace. simpl. by rewrite app_assoc. Qed.

Lemma deliver_all_to_living_handles w fs : ∀ w',
  handles_ok w → Forall (from_living_handle w) fs →
  heap w' = heap w → devices (drv w') = devices (drv w) →
  deliver_all fs w' =
    (Ok tt, with_trace (λ t, t ++ flat_map (handler_run w) fs) w') ∧
  length (flat_map (handler_run w) fs) = length fs.
Proof.
  induction fs as [|f fs IH]; intros w' Hok Hall Hh Hd.
  - simpl. by rewrite with_trace_id.
  - apply Forall_cons in Hall as [Hf Hall].
    destruct (deliver_to_living_handle w w' f Hok Hf Hh Hd) as [Hdel Hlen].
    simpl. unfold bind. rewrite Hdel.
    destruct (IH (with_trace (λ t, t ++ handler_run w f) w') Hok Hall)
      as [Hrest Hlen']; [done|done|].
    rewrite Hrest, with_trace_app, length_app, Hlen, Hlen'. done.
Qed.

(** One call of the driver's event processing, when the pending frames
    come from started streams of devices of living handles: after the call
    itself the trace holds, frame by frame and in the order of the frames,
    one run of the handler of the owning handle. *)
Lemma process_events_runs_each_handler_once c w :
  handles_ok w → Forall (from_living_handle w) (pending (drv w)) →
  trace (freenect_process_events c w).2 =
    trace w ++ Call_process_events c ::
      flat_map (handler_run w) (pending (drv w)) ∧
  length (flat_map (handler_run w) (pending (drv w))) =
    length (pending (drv w)).
Proof.
  intros Hok Hall.
  unfold freenect_process_events, bind, log, modify, get. simpl.
  set (w1 := with_drv _ _).
  destruct (deliver_all_to_living_handles w (pending (drv w)) w1 Hok Hall)
    as [Hdel Hlen]; [done|done|].
  rewrite Hdel. simpl. split; [|done].
  rewrite <- app_assoc. reflexivity.
Qed.

(** The scenario of the specification up to the deletion: construct,
    create device 0, start depth, three depth frames with timestamps 100,
    150, 200 processed by the pump thread, stop depth, delete device 0. *)
Example scenario_three_depth_frames :
  let w := run [New_Freenect; Request (Req_createDevice 0);
                Request (Req_startDepth 0%nat);
                Frame_arrival (DepthFrame 0%nat 1 100);
                Frame_arrival (DepthFrame 0%nat 2 150);
                Frame_arrival (DepthFrame 0%nat 3 200);
                Pump_iteration;
                Request (Req_stopDepth 0%nat);
                Request (Req_deleteDevice 0)] (boot 1 []) in
  trace w =
    [Call_init; Call_pthread_create; Call_open_device 0%nat 0;
     Call_start_depth 0%nat; Call_process_events 0%nat;
     Run_DepthCallback 0%nat 1 100; Run_DepthCallback 0%nat 2 150;
     Run_DepthCallback 0%nat 3 200; Call_stop_depth 0%nat] ∧
  m_devices (self w) = ∅.
Proof. vm_compute. split_and!; reflexivity. Qed.

Lemma close_calls_complete hp its i h o :
  (i, h) ∈ its → hp !! h = Some o →
  Call_close_device (m_dev o) ∈ close_calls hp its.
Proof.
  intros Hin Ho. unfold close_calls. apply list_elem_of_omap.
  exists (i, h). split; [done|]. simpl. by rewrite Ho.
Qed.

(** The calls of the destructor of the Context Manager, in any reachable
    world and with the join taken to return.  What the destructor does is
    always an initial part of the plan "close the device of every
    registered handle, by increasing index; set the stop flag; join the
    pump thread; shut the context down".  When no close fails it does all
    of the plan and every registered handle is destroyed; when one fails,
    the handle's destructor throws out of the loop and the rest of the plan
    is not done. *)
Theorem teardown_order (n : Z) (statuses : list Z) (prog : list api_call) :
  let w := run prog (boot n statuses) in
  let r := Freenect_dtor w in
  let entries := map_entries (m_devices (self w)) in
  (∀ i h, (i, h) ∈ entries ↔ m_devices (self w) !! i = Some h) ∧
  Sorted key_le entries ∧
  (∀ i h, m_devices (self w) !! i = Some h →
     ∃ o, heap w !! h = Some o ∧
          Call_close_device (m_dev o) ∈ close_calls (heap w) entries) ∧
  (∃ t, trace r.2 = trace w ++ t ∧ t `prefix_of` teardown_plan w) ∧
  (r.1 = Throw DeviceCloseError ∨
   (trace r.2 = trace w ++ teardown_plan w ∧
    m_stop (self r.2) = true ∧
    (∀ i h, m_devices (self w) !! i = Some h → heap r.2 !! h = None) ∧
    (r.1 = Ok tt ∨ r.1 = Throw ShutdownError))) ∧
  (r.1 = Throw ShutdownError →
     trace r.2 = trace w ++ teardown_plan w ∧
     ∀ i h, m_devices (self w) !! i = Some h → heap r.2 !! h = None) ∧
  ((∀ j, (j < length entries)%nat → nth j (oracle w) 0 = 0) →
     r.1 ≠ Throw DeviceCloseError).
Proof.
  intros w. generalize (Inv_run prog _ (Inv_boot n statuses)).
  fold w. generalize w. clear. intros w [Hh Hr] r entries.
  destruct (Freenect_dtor_run w Hr) as (t & o & w' & Hrun & Ht & Hpre & _ & Hcase).
  subst r. rewrite Hrun. simpl. split_and!.
  - intros i h. apply elem_of_map_entries.
  - apply map_entries_sorted.
  - intros i h Hih. destruct (ro_alive w Hr i h Hih) as [o' Ho'].
    exists o'. split; [done|].
    apply (close_calls_complete _ _ i h); [|done].
    by apply elem_of_map_entries.
  - by exists t.
  - destruct Hcase as [[-> _]|(-> & Hstop & _ & Hdead & ->)]; [by left|right].
    split_and!; try done.
    destruct (decide (nth _ (oracle w) 0 ≠ 0)); [by right|by left].
  - intros ->.
    destruct Hcase as [[[=] _]|(-> & _ & _ & Hdead & _)]. done.
  - intros Hz ->.
    destruct Hcase as [(_ & j & Hj & Hnz)|(_ & _ & _ & _ & Hr')].
    + apply Hnz, Hz, Hj.
    + destruct (decide (nth _ (oracle w) 0 ≠ 0)); discriminate Hr'.
Qed.

Lemma teardown_order_witness :
  let w := run [New_Freenect; Request (Req_createDevice 5);
                Request (Req_createDevice (-2)); Request (Req_createDevice 3)]
             (boot 3 []) in
  teardown_plan w =
    [Call_close_device 1%nat; Call_close_device 2%nat; Call_close_device 0%nat;
     Store_stop; Call_pthread_join 0%nat; Call_shutdown 0%nat] ∧
  trace (Freenect_dtor w).2 = trace w ++ teardown_plan w ∧
  (∀ i h, m_devices (self w) !! i = Some h →
          heap (Freenect_dtor w).2 !! h = None).
Proof.
  intros w.
  destruct (teardown_order 3 []
              [New_Freenect; Request (Req_createDevice 5);
               Request (Req_createDevice (-2)); Request (Req_createDevice 3)])
    as (_ & _ & _ & _ & Hcase & _ & Hok).
  split; [vm_compute; reflexivity|].
  destruct Hcase as [Hfail|(Ht & _ & Hdead & _)].
  - exfalso. revert Hfail. apply Hok. intros j _.
    replace (oracle _) with (@nil Z) by (vm_compute; reflexivity).
    by destruct j.
  - split; [exact Ht|exact Hdead].
Defined.

(** C3 (the code departs from the claim): two devices are registered and
    the driver refuses to close the first.  The destructor of the first
    handle throws out of the loop of [~Freenect], and the destructor of the
    Context Manager ends there with the close error: its only call is that
    one close; the second handle is not destroyed and its device stays
    open, the stop flag is not set, the pump thread is not joined and the
    context is not shut down. *)
Theorem teardown_close_failure :
  let w := run [New_Freenect; Request (Req_createDevice 0);
                Request (Req_createDevice 1)] (boot 2 [0; 0; 0; 0; 9]) in
  let r := Freenect_dtor w in
  m_devices (self w) !! 0 = Some 0%nat ∧
  m_devices (self w) !! 1 = Some 1%nat ∧
  r.1 = Throw DeviceCloseError ∧
  trace r.2 = trace w ++ [Call_close_device 0%nat] ∧
  heap r.2 !! 1%nat = Some (Build_FreenectDevice 1%nat) ∧
  is_Some (devices (drv r.2) !! 1%nat) ∧
  m_stop (self r.2) = false ∧
  (Call_pthread_join (m_thread (self w)) ∉ trace r.2) ∧
  (Call_shutdown (m_ctx (self w)) ∉ trace r.2) ∧
  m_ctx (self w) ∈ contexts (drv r.2).
Proof.
  intros w r.
  assert (Ht : trace r.2 =
            [Call_init; Call_pthread_create; Call_open_device 0%nat 0;
             Call_open_device 0%nat 1; Call_close_device 0%nat])
    by (vm_compute; reflexivity).
  split_and!.
  - vm_compute. reflexivity.
  - vm_compute. reflexivity.
  - vm_compute. reflexivity.
  - rewrite Ht. vm_compute. reflexivity.
  - vm_compute. reflexivity.
  - vm_compute. by eexists.
  - vm_compute. reflexivity.
  - rewrite Ht. intros H.
    repeat (apply elem_of_cons in H as [H|H]; [discriminate H|]).
    by apply elem_of_nil in H.
  - rewrite Ht. intros H.
    repeat (apply elem_of_cons in H as [H|H]; [discriminate H|]).
    by apply elem_of_nil in H.
  - apply (bool_decide_unpack _). vm_compute. exact I.
Qed.

(** The registry after one request that returned. *)
Lemma snd_bind_ret {A} (m : M A) w : ((m;;; ret tt) w).2 = (m w).2.
Proof. unfold bind, ret. by destruct (m w) as [[a|e] w']. Qed.

Lemma serve_perform r w : serve r w = (perform r w).2.
Proof. destruct r; simpl perform; unfold serve; by rewrite ?snd_bind_ret. Qed.

Lemma perform_registry r w w1 :
  perform r w = (Ok tt, w1) →
  dom (m_devices (self w1)) =
    match r with
    | Req_createDevice j => {[j]} ∪ dom (m_devices (self w))
    | Req_deleteDevice j => dom (m_devices (self w)) ∖ {[j]}
    | _ => dom (m_devices (self w))
    end.
Proof.
  intros Hp.
  assert (Hw1 : w1 = serve r w) by (by rewrite serve_perform, Hp).
  destruct r as [i|i| |h|h|h|h|h a|h o|h|h].
  - destruct (decide (hd 0 (oracle w) = 0)) as [Hs|Hs].
    + destruct (createDevice_ok i w Hs) as (w2 & st & Hc & Hm & _).
      unfold serve in Hw1. rewrite Hc in Hw1. simpl in Hw1. subst w2.
      rewrite Hm. unfold std_map_insert.
      destruct (m_devices (self w) !! i) eqn:E.
      * apply (elem_of_dom_2 (D := gset Z)) in E.
        apply set_eq. intros x. rewrite elem_of_union, elem_of_singleton.
        split; [tauto|]. by intros [->|?].
      * by rewrite dom_insert_L.
    + destruct (createDevice_throw i w Hs) as (w2 & Hc & _).
      simpl in Hp. unfold bind in Hp. by rewrite Hc in Hp.
  - subst w1. simpl. by rewrite dom_delete_L.
  - subst w1. unfold serve.
    destruct (heap_self_deviceCount (heap w) (self w) w) as [_ ->]; done.
  - subst w1. unfold serve.
    destruct (heap_self_request_handle (heap w) (self w) h PrimFloat.zero LED_OFF)
      as (H & _). by destruct (H w) as [_ ->].
  - subst w1. unfold serve.
    destruct (heap_self_request_handle (heap w) (self w) h PrimFloat.zero LED_OFF)
      as (_ & H & _). by destruct (H w) as [_ ->].
  - subst w1. unfold serve.
    destruct (heap_self_request_handle (heap w) (self w) h PrimFloat.zero LED_OFF)
      as (_ & _ & H & _). by destruct (H w) as [_ ->].
  - subst w1. unfold serve.
    destruct (heap_self_request_handle (heap w) (self w) h PrimFloat.zero LED_OFF)
      as (_ & _ & _ & H & _). by destruct (H w) as [_ ->].
  - subst w1. unfold serve.
    destruct (heap_self_request_handle (heap w) (self w) h a LED_OFF)
      as (_ & _ & _ & _ & H & _). by destruct (H w) as [_ ->].
  - subst w1. unfold serve.
    destruct (heap_self_request_handle (heap w) (self w) h PrimFloat.zero o)
      as (_ & _ & _ & _ & _ & H & _). by destruct (H w) as [_ ->].
  - subst w1. unfold serve.
    destruct (heap_self_request_handle (heap w) (self w) h PrimFloat.zero LED_OFF)
      as (_ & _ & _ & _ & _ & _ & H & _). by destruct (H w) as [_ ->].
  - subst w1. unfold serve.
    destruct (heap_self_request_handle (heap w) (self w) h PrimFloat.zero LED_OFF)
      as (_ & _ & _ & _ & _ & _ & _ & H). by destruct (H w) as [_ ->].
Qed.

Lemma created_not_deleted_nil i : ¬ created_not_deleted [] i.
Proof. intros (l1 & l2 & H & _). by destruct l1. Qed.

Lemma created_not_deleted_cons r rs i :
  created_not_deleted (r :: rs) i ↔
  (r = Req_createDevice i ∧ Req_deleteDevice i ∉ rs) ∨
  created_not_deleted rs i.
Proof.
  split.
  - intros (l1 & l2 & H & Hn). destruct l1 as [|r' l1]; simpl in H.
    + inversion H; subst. by left.
    + inversion H; subst. right. by exists l1, l2.
  - intros [[-> Hn]|(l1 & l2 & -> & Hn)].
    + by exists [], rs.
    + by exists (r :: l1), l2.
Qed.

(** The key set after any sequence of requests that all returned, from any
    registry: what was created and not deleted since, and what was there
    before and never deleted. *)
Lemma registry_keys_after rs : ∀ w w',
  perform_all rs w = (Ok tt, w') →
  ∀ i, i ∈ dom (m_devices (self w')) ↔
       created_not_deleted rs i ∨
       (i ∈ dom (m_devices (self w)) ∧ Req_deleteDevice i ∉ rs).
Proof.
  induction rs as [|r rs IH]; intros w w' Hrun i.
  - injection Hrun as <-. split.
    + intros Hi. right. split; [done|]. apply not_elem_of_nil.
    + intros [H|[H _]]; [by apply created_not_deleted_nil in H|done].
  - simpl in Hrun. unfold bind in Hrun.
    destruct (perform r w) as [[[]|e] w1] eqn:Hp; [|discriminate Hrun].
    rewrite (IH w1 w' Hrun i), created_not_deleted_cons,
      (perform_registry r w w1 Hp), not_elem_of_cons.
    destruct r as [j|j| |h|h|h|h|h a|h o|h|h];
      clear; set_unfold; intuition congruence.
Qed.

(** C7: from an empty registry, after a sequence of calls that all
    returned, creating at pairwise different indices, the keys of the
    registry are the indices created and not deleted afterwards. *)
Theorem registry_is_created_not_deleted (rs : list request) (w w' : world) :
  m_devices (self w) = ∅ →
  NoDup (created rs) →
  perform_all rs w = (Ok tt, w') →
  ∀ i, i ∈ dom (m_devices (self w')) ↔ created_not_deleted rs i.
Proof.
  intros Hempty _ Hrun i.
  rewrite (registry_keys_after rs w w' Hrun i), Hempty, dom_empty_L.
  split; [|by left].
  intros [?|[H _]]; [done|]. by apply not_elem_of_empty in H.
Qed.

Lemma registry_is_created_not_deleted_witness :
  let rs := [Req_createDevice 3; Req_createDevice 5; Req_deleteDevice 3] in
  let w := run [New_Freenect] (boot 2 []) in
  (5 ∈ dom (m_devices (self (perform_all rs w).2)) ↔
   created_not_deleted rs 5) ∧
  (3 ∈ dom (m_devices (self (perform_all rs w).2)) ↔
   created_not_deleted rs 3).
Proof.
  intros rs w.
  assert (He : m_devices (self w) = ∅) by (vm_compute; reflexivity).
  assert (Hn : NoDup (created rs))
    by (apply (bool_decide_unpack _); vm_compute; exact I).
  assert (Hr : perform_all rs w = (Ok tt, (perform_all rs w).2))
    by (vm_compute; reflexivity).
  split.
  - exact (registry_is_created_not_deleted rs w _ He Hn Hr 5).
  - exact (registry_is_created_not_deleted rs w _ He Hn Hr 3).
Defined.

(** ** The pump loop *)

Lemma process_events_calls_app t e :
  process_events_calls (t ++ [e]) =
  (process_events_calls t + (if is_process_events e then 1 else 0))%nat.
Proof.
  unfold process_events_calls. rewrite List.filter_app, length_app.
  destruct e; reflexivity.
Qed.

#[local] Hint Extern 1 (preserves (pe_count_is _) (modify _)) =>
  apply preserves_modify; unfold pe_count_is; intros ? ?; simpl;
  rewrite ?process_events_calls_app; simpl; lia : preserves.

Lemma pe_count_next_status n : preserves (pe_count_is n) next_status.
Proof. intros w H. exact H. Qed.
#[local] Hint Resolve pe_count_next_status : preserves.

Ltac to_primitives :=
  unfold startRGB, stopRGB, startDepth, stopDepth, setTiltDegrees, setLed,
    getAccelerometers_double, getAccelerometers_int16, deviceCount,
    freenect_start_rgb, freenect_stop_rgb, freenect_start_depth,
    freenect_stop_depth, freenect_set_tilt_degs, freenect_set_led,
    freenect_get_mks_accel, freenect_get_raw_accel, freenect_num_devices,
    deliver, call_depth_cb, call_rgb_cb, freenect_depth_callback,
    freenect_rgb_callback, freenect_get_user, DepthCallback, RGBCallback,
    device_call, update_device, deref, log.

Lemma pe_count_request_handle n :
  ∀ h a o,
    preserves (pe_count_is n) (startRGB h) ∧
    preserves (pe_count_is n) (stopRGB h) ∧
    preserves (pe_count_is n) (startDepth h) ∧
    preserves (pe_count_is n) (stopDepth h) ∧
    preserves (pe_count_is n) (setTiltDegrees h a) ∧
    preserves (pe_count_is n) (setLed h o) ∧
    preserves (pe_count_is n) (getAccelerometers_double h) ∧
    preserves (pe_count_is n) (getAccelerometers_int16 h) ∧
    preserves (pe_count_is n) deviceCount.
Proof. intros h a o. to_primitives. split_and!; preserves_go. Qed.

Lemma pe_count_deliver_all n fs : preserves (pe_count_is n) (deliver_all fs).
Proof.
  induction fs as [|f fs IH]; simpl; [apply preserves_ret|].
  apply preserves_bind; [|done]. to_primitives. preserves_go.
Qed.

Lemma pe_count_process_events c w :
  process_events_calls (trace (freenect_process_events c w).2) =
  S (process_events_calls (trace w)).
Proof.
  unfold freenect_process_events, bind at 1. unfold log at 1. simpl.
  set (w1 := with_trace _ w).
  assert (H1 : pe_count_is (S (process_events_calls (trace w))) w1).
  { unfold pe_count_is, w1. simpl. rewrite process_events_calls_app. simpl. lia. }
  assert (HP : ∀ n, preserves (pe_count_is n)
            (let! w := get in
             modify (with_drv (with_pending (λ _, [])));;;
             deliver_all (pending (drv w));;; next_status)).
  { intros n. pose proof (pe_count_deliver_all n). preserves_go. }
  exact (HP _ w1 H1).
Qed.

Lemma pe_count_serve r w :
  process_events_calls (trace (serve r w)) = process_events_calls (trace w).
Proof.
  pose proof (pe_count_request_handle (process_events_calls (trace w))) as H.
  destruct r as [i|i| |h|h|h|h|h a|h o|h|h]; unfold serve.
  - destruct (decide (hd 0 (oracle w) = 0)) as [Hs|Hs].
    + destruct (createDevice_ok i w Hs) as (w2 & st & -> & Hrest).
      simpl. replace (trace w2) with (trace w ++ [Call_open_device (m_ctx (self w)) i])
        by (symmetry; apply Hrest).
      rewrite process_events_calls_app. simpl. lia.
    + destruct (createDevice_throw i w Hs) as (w2 & -> & Hrest).
      simpl. replace (trace w2) with (trace w ++ [Call_open_device (m_ctx (self w)) i])
        by (symmetry; apply Hrest).
      rewrite process_events_calls_app. simpl. lia.
  - done.
  - by apply (H 0%nat PrimFloat.zero LED_OFF).
  - by apply (H h PrimFloat.zero LED_OFF).
  - by apply (H h PrimFloat.zero LED_OFF).
  - by apply (H h PrimFloat.zero LED_OFF).
  - by apply (H h PrimFloat.zero LED_OFF).
  - by apply (H h a LED_OFF).
  - by apply (H h PrimFloat.zero o).
  - by apply (H h PrimFloat.zero LED_OFF).
  - by apply (H h PrimFloat.zero LED_OFF).
Qed.

Lemma delete_T_trace_self p w :
  process_events_calls (trace (delete_T p w).2) =
    process_events_calls (trace w) ∧
  self (delete_T p w).2 = self w.
Proof.
  destruct (heap w !! p) as [o|] eqn:Hp.
  - destruct (delete_T_alive p o w Hp)
      as (w' & -> & _ & _ & _ & _ & Hs & _ & Ht).
    simpl. rewrite Ht, process_events_calls_app. simpl. split; [lia|done].
  - by rewrite delete_T_dead.
Qed.

Lemma self_serve r w :
  m_ctx (self (serve r w)) = m_ctx (self w) ∧
  m_stop (self (serve r w)) = m_stop (self w) ∧
  m_thread (self (serve r w)) = m_thread (self w).
Proof.
  pose proof (heap_self_request_handle (heap w) (self w)) as H.
  assert (Hk : ∀ A (m : M A),
             preserves (heap_self_are (heap w) (self w)) m →
             m_ctx (self (m w).2) = m_ctx (self w) ∧
             m_stop (self (m w).2) = m_stop (self w) ∧
             m_thread (self (m w).2) = m_thread (self w)).
  { intros A m Hm. destruct (Hm w) as [_ ->]; done. }
  destruct r as [i|i| |h|h|h|h|h a|h o|h|h]; unfold serve.
  - destruct (decide (hd 0 (oracle w) = 0)) as [Hs|Hs].
    + destruct (createDevice_ok i w Hs) as (w2 & st & -> & _ & ? & ? & ? & _).
      done.
    + destruct (createDevice_throw i w Hs) as (w2 & -> & _ & _ & Hself & _).
      simpl. by rewrite Hself.
  - done.
  - apply Hk, heap_self_deviceCount.
  - apply Hk, (H h PrimFloat.zero LED_OFF).
  - apply Hk, (H h PrimFloat.zero LED_OFF).
  - apply Hk, (H h PrimFloat.zero LED_OFF).
  - apply Hk, (H h PrimFloat.zero LED_OFF).
  - apply Hk, (H h a LED_OFF).
  - apply Hk, (H h PrimFloat.zero o).
  - apply Hk, (H h PrimFloat.zero LED_OFF).
  - apply Hk, (H h PrimFloat.zero LED_OFF).
Qed.

Lemma self_process_events c w :
  self (freenect_process_events c w).2 = self w.
Proof.
  by destruct (heap_self_process_events (heap w) (self w) c w) as [_ ->].
Qed.

Lemma step_stop_kept a c :
  m_stop (self c.2) = true → m_stop (self (step a c).2) = true.
Proof.
  destruct c as [pc w]. simpl. intros Hstop. destruct a as [|r|f|p|]; simpl.
  - destruct pc; simpl; try done.
    + by rewrite Hstop.
    + pose proof (self_process_events (m_ctx (self w)) w) as Hs.
      destruct (freenect_process_events (m_ctx (self w)) w) as [[s|e] w'];
        simpl in *; [destruct (decide (s ≠ 0))|]; simpl; by rewrite Hs.
  - destruct (self_serve r w) as (_ & -> & _). done.
  - done.
  - destruct (delete_T_trace_self p w) as [_ ->]. done.
  - done.
Qed.

Lemma step_calls_bound a c :
  m_stop (self c.2) = true →
  (process_events_calls (trace (step a c).2) + calls_owed (step a c).1 =
   process_events_calls (trace c.2) + calls_owed c.1)%nat.
Proof.
  destruct c as [pc w]. simpl. intros Hstop. destruct a as [|r|f|p|]; simpl.
  - destruct pc; simpl; try done.
    + by rewrite Hstop.
    + pose proof (pe_count_process_events (m_ctx (self w)) w) as Hc.
      destruct (freenect_process_events (m_ctx (self w)) w) as [[s|e] w'];
        simpl in *; [destruct (decide (s ≠ 0))|]; simpl; lia.
  - by rewrite pe_count_serve.
  - done.
  - destruct (delete_T_trace_self p w) as [-> _]. done.
  - rewrite process_events_calls_app. simpl. lia.
Qed.

Lemma step_steps_left a c :
  m_stop (self c.2) = true →
  (steps_left (step a c).1 ≤
   steps_left c.1 - (if is_pump a then 1 else 0))%nat.
Proof.
  destruct c as [pc w]. simpl. intros Hstop. destruct a as [|r|f|p|]; simpl;
    try lia.
  destruct pc; simpl; try lia.
  - rewrite Hstop. simpl. lia.
  - destruct (freenect_process_events (m_ctx (self w)) w) as [[s|e] w'];
      [destruct (decide (s ≠ 0))|]; simpl; lia.
Qed.

Lemma run_schedule_stopped sched : ∀ c,
  m_stop (self c.2) = true →
  let c' := run_schedule sched c in
  m_stop (self c'.2) = true ∧
  (process_events_calls (trace c'.2) + calls_owed c'.1 =
   process_events_calls (trace c.2) + calls_owed c.1)%nat ∧
  (steps_left c'.1 ≤ steps_left c.1 - pump_steps sched)%nat.
Proof.
  induction sched as [|a sched IH]; intros c Hstop.
  - unfold pump_steps. simpl. split_and!; [done|done|lia].
  - simpl.
    destruct (IH (step a c) (step_stop_kept a c Hstop)) as (H1 & H2 & H3).
    split_and!.
    + exact H1.
    + rewrite H2. by apply step_calls_bound.
    + pose proof (step_steps_left a c Hstop) as H4.
      unfold pump_steps in *. destruct a; simpl in *; lia.
Qed.

Lemma steps_left_0 pc : steps_left pc = 0%nat → terminated pc.
Proof. by destruct pc. Qed.

Lemma calls_owed_le pc : (calls_owed pc ≤ 1)%nat.
Proof. destruct pc; simpl; lia. Qed.

(** C4: the pump loop.  The loop tests the flag before every call: from the
    test it goes to the call only when the flag is clear, the call is one
    call to the driver's event processing, and a call that reports success
    leads back to the test.  When the test sees the flag set, the loop
    returns, and a thread that has returned does nothing more.  Whatever the
    other threads do meanwhile, once the flag is set the pump thread makes
    at most one more call (the one whose test had passed already), none
    when it is at the test, and is out of the loop after two of its
    steps. *)
Theorem pump_loop_stops (w0 : world) (before after : list action) :
  let c1 := run_schedule before (AtLoopTest, w0) in
  let c2 := run_schedule after c1 in
  m_stop (self c1.2) = true →
  (process_events_calls (trace c2.2) ≤
     S (process_events_calls (trace c1.2)))%nat ∧
  (c1.1 ≠ InLoopBody →
     process_events_calls (trace c2.2) = process_events_calls (trace c1.2)) ∧
  (2 ≤ pump_steps after → terminated c2.1)%nat ∧
  (∀ w, m_stop (self w) = false → pump_step AtLoopTest w = (InLoopBody, w)) ∧
  (∀ w, m_stop (self w) = true → pump_step AtLoopTest w = (Returned, w)) ∧
  (∀ w, (pump_step InLoopBody w).2 =
          (freenect_process_events (m_ctx (self w)) w).2 ∧
        process_events_calls (trace (pump_step InLoopBody w).2) =
          S (process_events_calls (trace w)) ∧
        ((freenect_process_events (m_ctx (self w)) w).1 = Ok 0 →
         (pump_step InLoopBody w).1 = AtLoopTest)) ∧
  (∀ w, pump_step Returned w = (Returned, w)) ∧
  (∀ e w, pump_step (Thrown e) w = (Thrown e, w)).
Proof.
  intros c1 c2 Hstop.
  destruct (run_schedule_stopped after c1 Hstop) as (_ & Hc & Hl).
  fold c2 in Hc, Hl. clearbody c2. clearbody c1.
  destruct c1 as [pc1 w1], c2 as [pc2 w2]. simpl in *.
  pose proof (calls_owed_le pc1). split_and!.
  - lia.
  - intros Hne. destruct pc1, pc2; simpl in *; try lia; by destruct Hne.
  - intros H2. apply steps_left_0.
    assert (steps_left pc1 ≤ 2)%nat by (destruct pc1; simpl; lia). lia.
  - intros w Hw. simpl. by rewrite Hw.
  - intros w Hw. simpl. by rewrite Hw.
  - intros w. simpl.
    pose proof (pe_count_process_events (m_ctx (self w)) w) as Hp.
    destruct (freenect_process_events (m_ctx (self w)) w) as [[s|e] w'];
      simpl in *.
    + destruct (decide (s ≠ 0)) as [Hs|Hs]; simpl; split_and!; try done.
      intros [= ->]. done.
    + split_and!; try done.
  - done.
  - done.
Qed.

Lemma pump_loop_stops_witness :
  let w0 := run [New_Freenect; Request (Req_createDevice 0)] (boot 1 []) in
  let before := [Act_pump; Act_store_stop] in
  let after := [Act_request (Req_startDepth 0%nat); Act_pump;
                Act_frame (DepthFrame 0%nat 7 100); Act_pump; Act_pump] in
  let c1 := run_schedule before (AtLoopTest, w0) in
  let c2 := run_schedule after c1 in
  m_stop (self c1.2) = true ∧
  c1.1 = InLoopBody ∧
  process_events_calls (trace c1.2) = 0%nat ∧
  process_events_calls (trace c2.2) = 1%nat ∧
  (process_events_calls (trace c2.2) ≤
     S (process_events_calls (trace c1.2)))%nat ∧
  terminated c2.1.
Proof.
  intros w0 before after c1 c2.
  assert (Hstop : m_stop (self c1.2) = true) by (vm_compute; reflexivity).
  destruct (pump_loop_stops w0 before after Hstop) as (Hle & _ & Hterm & _).
  split_and!.
  - exact Hstop.
  - vm_compute. reflexivity.
  - vm_compute. reflexivity.
  - vm_compute. reflexivity.
  - exact Hle.
  - apply Hterm. vm_compute. lia.
Defined.

(** The loop of [operator()] and its small steps are the same loop. *)
Lemma operator_call_stopped fuel w :
  m_stop (self w) = true → operator_call (S fuel) w = Some (Ok tt, w).
Proof. intros Hs. simpl. by rewrite Hs. Qed.

Lemma operator_call_pump_steps fuel : ∀ w r w',
  operator_call fuel w = Some (r, w') →
  ∃ k, run_schedule (repeat Act_pump k) (AtLoopTest, w) =
         (match r with Ok _ => Returned | Throw e => Thrown e end, w').
Proof.
  induction fuel as [|fuel IH]; intros w r w' Hrun; [discriminate Hrun|].
  simpl in Hrun. destruct (m_stop (self w)) eqn:Hs.
  - injection Hrun as <- <-. exists 1%nat. simpl. by rewrite Hs.
  - destruct (freenect_process_events (m_ctx (self w)) w) as [[s|e] w1] eqn:Hp.
    + destruct (decide (s ≠ 0)) as [Hnz|Hz].
      * injection Hrun as <- <-. exists 2%nat. simpl. rewrite Hs. simpl.
        rewrite Hp. by destruct (decide (s ≠ 0)).
      * destruct (IH w1 r w' Hrun) as (k & Hk). exists (S (S k)).
        simpl. rewrite Hs. simpl. rewrite Hp.
        destruct (decide (s ≠ 0)); [done|]. exact Hk.
    + injection Hrun as <- <-. exists 2%nat. simpl. rewrite Hs. simpl.
      by rewrite Hp.
Qed.

(** * Further properties of the header *)

(** ** The constructor of the Context Manager *)

(** X1: when the driver's init reports a failure the constructor throws
    the init error, having made that one call only: no thread is created,
    and the driver and the heap of handles are as before. *)
Theorem Freenect_ctor_init_failure (w : world) :
  hd 0 (oracle w) ≠ 0 →
  let r := Freenect_ctor w in
  r.1 = Throw InitError ∧
  trace r.2 = trace w ++ [Call_init] ∧
  drv r.2 = drv w ∧
  next_thread r.2 = next_thread w ∧
  heap r.2 = heap w ∧
  oracle r.2 = tl (oracle w).
Proof.
  intros Hs.
  unfold Freenect_ctor, freenect_init, bind, log, modify, next_status, get,
    ret, throw. simpl.
  destruct (decide (hd 0 (oracle w) = 0)) as [|_]; [done|]. simpl.
  destruct (decide (hd 0 (oracle w) ≠ 0)); [|done]. simpl.
  split_and!; done.
Qed.

Lemma Freenect_ctor_init_failure_witness :
  let r := Freenect_ctor (boot 1 [-1; 0]) in
  r.1 = Throw InitError ∧
  trace r.2 = trace (boot 1 [-1; 0]) ++ [Call_init] ∧
  drv r.2 = drv (boot 1 [-1; 0]) ∧
  next_thread r.2 = next_thread (boot 1 [-1; 0]) ∧
  heap r.2 = heap (boot 1 [-1; 0]) ∧
  oracle r.2 = tl (oracle (boot 1 [-1; 0])).
Proof. apply (Freenect_ctor_init_failure (boot 1 [-1; 0])). simpl. lia. Defined.

(** X2: when init and thread creation both succeed the constructor
    returns with the stop flag clear, an empty registry, [m_ctx] the context
    the driver has just initialised and [m_thread] the thread just created;
    it has made these two calls and touched no handle and no device. *)
Theorem Freenect_ctor_success (w : world) :
  hd 0 (oracle w) = 0 →
  hd 0 (tl (oracle w)) = 0 →
  let r := Freenect_ctor w in
  r.1 = Ok tt ∧
  m_stop (self r.2) = false ∧
  m_devices (self r.2) = ∅ ∧
  m_ctx (self r.2) = next_context (drv w) ∧
  m_ctx (self r.2) ∈ contexts (drv r.2) ∧
  m_thread (self r.2) = next_thread w ∧
  trace r.2 = trace w ++ [Call_init; Call_pthread_create] ∧
  heap r.2 = heap w ∧
  devices (drv r.2) = devices (drv w).
Proof.
  intros H1 H2.
  unfold Freenect_ctor, freenect_init, pthread_create, bind, log, modify,
    next_status, get, ret, throw. simpl.
  rewrite H1. simpl. rewrite H2. simpl.
  split_and!; try done.
  - apply elem_of_union_l. by apply elem_of_singleton.
  - by rewrite <- app_assoc.
Qed.

Lemma Freenect_ctor_success_witness :
  let r := Freenect_ctor (boot 1 []) in
  r.1 = Ok tt ∧
  m_stop (self r.2) = false ∧
  m_devices (self r.2) = ∅ ∧
  m_ctx (self r.2) = next_context (drv (boot 1 [])) ∧
  m_ctx (self r.2) ∈ contexts (drv r.2) ∧
  m_thread (self r.2) = next_thread (boot 1 []) ∧
  trace r.2 = trace (boot 1 []) ++ [Call_init; Call_pthread_create] ∧
  heap r.2 = heap (boot 1 []) ∧
  devices (drv r.2) = devices (drv (boot 1 [])).
Proof. apply (Freenect_ctor_success (boot 1 [])); reflexivity. Defined.

(** ** [createDevice] at a free index *)

Lemma open_device_ok_inv c i w d w1 :
  freenect_open_device c i w = (Ok (0, d), w1) →
  hd 0 (oracle w) = 0 ∧ d = next_device (drv w).
Proof.
  unfold freenect_open_device, bind, log, modify, next_status, get, ret.
  simpl. destruct (decide (hd 0 (oracle w) = 0)) as [Hs|Hs]; simpl.
  - by intros [= _ <- _].
  - intros [= Hz _ _]. done.
Qed.

(** X3: [createDevice] at an index that has no entry, when the driver
    opens the device: the reference returned is the handle just
    constructed, the registry is the old one with that index bound to it,
    and the handle is a new object (not alive before, in no entry before)
    wrapping the device the driver returned. *)
Theorem createDevice_free_index (_index : Z) (w w1 : world)
    (d : freenect_device) :
  reachable w →
  m_devices (self w) !! _index = None →
  freenect_open_device (m_ctx (self w)) _index w = (Ok (0, d), w1) →
  let p := next_ptr w in
  let w' := (createDevice _index w).2 in
  (createDevice _index w).1 = Ok p ∧
  m_devices (self w') = <[_index := p]> (m_devices (self w)) ∧
  heap w !! p = None ∧
  heap w' = <[p := Build_FreenectDevice d]> (heap w) ∧
  (∀ j, m_devices (self w) !! j ≠ Some p).
Proof.
  intros Hreach Hfree Hopen p w'.
  destruct (reachable_Inv w Hreach) as [[_ H2 _] [R1 _]].
  destruct (open_device_ok_inv _ _ _ _ _ Hopen) as [Hs ->].
  destruct (createDevice_ok _index w Hs)
    as (w2 & st & Hc & Hm & _ & _ & _ & Hh & _).
  subst w'. rewrite Hc. simpl. rewrite Hfree. simpl.
  assert (Hnew : heap w !! p = None).
  { destruct (heap w !! p) eqn:E; [|done].
    specialize (H2 _ (mk_is_Some _ _ E)). unfold p in H2. lia. }
  split_and!; try done.
  - rewrite Hm. unfold std_map_insert. by rewrite Hfree.
  - intros j Hj. destruct (R1 _ _ Hj) as [o Ho]. congruence.
Qed.

Lemma createDevice_free_index_witness :
  let w := run [New_Freenect; Request (Req_createDevice 0)] (boot 2 []) in
  let w' := (createDevice 1 w).2 in
  (createDevice 1 w).1 = Ok 1%nat ∧
  m_devices (self w') = <[1 := 1%nat]> (m_devices (self w)) ∧
  heap w !! 1%nat = None ∧
  heap w' = <[1%nat := Build_FreenectDevice 1%nat]> (heap w) ∧
  (∀ j, m_devices (self w) !! j ≠ Some 1%nat).
Proof.
  intros w.
  apply (createDevice_free_index 1 w
           (freenect_open_device (m_ctx (self w)) 1 w).2 1%nat).
  - apply reachable_run.
  - vm_compute. reflexivity.
  - vm_compute. reflexivity.
Defined.

(** X4: the constructor of a handle, when the driver opens the device:
    the object holds the device the driver returned, and that device has
    the object as user pointer, the RGB pixel format, the 11-bit depth
    format and the two trampolines as callbacks; no stream is started. *)
Theorem FreenectDevice_ctor_configures (this : ptr) (_ctx : freenect_context)
    (_index : Z) (w w1 : world) (d : freenect_device) :
  freenect_open_device _ctx _index w = (Ok (0, d), w1) →
  let r := FreenectDevice_ctor this _ctx _index w in
  r.1 = Ok tt ∧
  heap r.2 = <[this := Build_FreenectDevice d]> (heap w) ∧
  ∃ st, devices (drv r.2) = <[d := st]> (devices (drv w)) ∧
    dev_index st = _index ∧
    dev_user st = Some this ∧
    dev_rgb_format st = Some FREENECT_FORMAT_RGB ∧
    dev_depth_format st = Some FREENECT_FORMAT_11_BIT ∧
    dev_depth_cb st = Some addr_freenect_depth_callback ∧
    dev_rgb_cb st = Some addr_freenect_rgb_callback ∧
    dev_rgb_on st = false ∧
    dev_depth_on st = false.
Proof.
  intros Hopen.
  destruct (open_device_ok_inv _ _ _ _ _ Hopen) as [Hs ->].
  unfold FreenectDevice_ctor, freenect_open_device, bind, get, modify, log,
    next_status, ret, throw. simpl.
  rewrite Hs. simpl. unfold deref, bind, get, ret; simpl.
  rewrite lookup_insert_eq. simpl.
  split; [reflexivity|]. split; [reflexivity|].
  exists (set_rgb_cb addr_freenect_rgb_callback
            (set_depth_cb addr_freenect_depth_callback
               (set_depth_format FREENECT_FORMAT_11_BIT
                  (set_rgb_format FREENECT_FORMAT_RGB
                     (set_user (Some this) (fresh_device _index)))))).
  split; [|done]. simpl. rewrite <- !alter_insert_eq. reflexivity.
Qed.

Lemma FreenectDevice_ctor_configures_witness :
  let w := run [New_Freenect] (boot 1 []) in
  let r := FreenectDevice_ctor 0%nat 0%nat 4 w in
  r.1 = Ok tt ∧
  heap r.2 = <[0%nat := Build_FreenectDevice 0%nat]> (heap w) ∧
  ∃ st, devices (drv r.2) = <[0%nat := st]> (devices (drv w)) ∧
    dev_index st = 4 ∧
    dev_user st = Some 0%nat ∧
    dev_rgb_format st = Some FREENECT_FORMAT_RGB ∧
    dev_depth_format st = Some FREENECT_FORMAT_11_BIT ∧
    dev_depth_cb st = Some addr_freenect_depth_callback ∧
    dev_rgb_cb st = Some addr_freenect_rgb_callback ∧
    dev_rgb_on st = false ∧
    dev_depth_on st = false.
Proof.
  intros w.
  apply (FreenectDevice_ctor_configures 0%nat 0%nat 4 w
           (freenect_open_device 0%nat 4 w).2 0%nat).
  vm_compute. reflexivity.
Defined.

(** X5: [createDevice] at a free index followed by [deleteDevice] at the
    same index: in between the index is bound to the new handle, and
    afterwards the registry is what it was before the two calls. *)
Theorem create_then_delete_restores_registry (_index : Z) (w w1 : world)
    (d : freenect_device) :
  m_devices (self w) !! _index = None →
  freenect_open_device (m_ctx (self w)) _index w = (Ok (0, d), w1) →
  let w' := (createDevice _index w).2 in
  m_devices (self w') !! _index = Some (next_ptr w) ∧
  m_devices (self (deleteDevice _index w').2) = m_devices (self w).
Proof.
  intros Hfree Hopen w'.
  destruct (open_device_ok_inv _ _ _ _ _ Hopen) as [Hs _].
  destruct (createDevice_ok _index w Hs) as (w2 & st & Hc & Hm & _).
  subst w'. rewrite Hc. simpl. rewrite Hm. unfold std_map_insert.
  rewrite Hfree. split.
  - apply lookup_insert_eq.
  - by apply delete_insert_id.
Qed.

Lemma create_then_delete_restores_registry_witness :
  let w := run [New_Freenect; Request (Req_createDevice 0)] (boot 2 []) in
  let w' := (createDevice 3 w).2 in
  m_devices (self w') !! 3 = Some (next_ptr w) ∧
  m_devices (self (deleteDevice 3 w').2) = m_devices (self w).
Proof.
  intros w.
  apply (create_then_delete_restores_registry 3 w
           (freenect_open_device (m_ctx (self w)) 3 w).2 1%nat).
  - vm_compute. reflexivity.
  - vm_compute. reflexivity.
Defined.

(** ** The destructor of a handle *)

Lemma close_device_returns d w :
  ∃ b w', freenect_close_device d w = (Ok b, w').
Proof.
  unfold freenect_close_device, bind, log, modify, next_status, ret. simpl.
  destruct (decide (hd 0 (oracle w) = 0)); simpl; eauto.
Qed.

(** X6: the destructor of a living handle makes one close call, for the
    device of the handle, and throws the close error exactly when the
    status is not zero; [delete] releases the object whether or not the
    destructor throws. *)
Theorem FreenectDevice_dtor_surfaces_failure (this : ptr)
    (o : FreenectDevice) (w : world) :
  heap w !! this = Some o →
  raises_iff_nonzero (FreenectDevice_dtor this)
    (freenect_close_device (m_dev o)) (λ s, s) (λ _, tt) DeviceCloseError w ∧
  trace (FreenectDevice_dtor this w).2 =
    trace w ++ [Call_close_device (m_dev o)] ∧
  heap (delete_T this w).2 = delete this (heap w).
Proof.
  intros Ho. split_and!.
  - apply (wrapper_raises_iff_nonzero freenect_close_device); [done|].
    apply close_device_returns.
  - unfold FreenectDevice_dtor, deref, freenect_close_device, bind, get, log,
      modify, next_status, ret, throw. simpl. rewrite Ho. simpl.
    destruct (decide (hd 0 (oracle w) = 0)) as [Hs|Hs]; simpl.
    + rewrite Hs. done.
    + by destruct (decide (hd 0 (oracle w) ≠ 0)).
  - destruct (delete_T_alive this o w Ho) as (w' & -> & Hh & _). done.
Qed.

Lemma FreenectDevice_dtor_surfaces_failure_witness :
  let w := run [New_Freenect; Request (Req_createDevice 0)]
             (boot 1 [0; 0; 0; 5]) in
  let o := Build_FreenectDevice 0%nat in
  raises_iff_nonzero (FreenectDevice_dtor 0%nat)
    (freenect_close_device (m_dev o)) (λ s, s) (λ _, tt) DeviceCloseError w ∧
  trace (FreenectDevice_dtor 0%nat w).2 =
    trace w ++ [Call_close_device (m_dev o)] ∧
  heap (delete_T 0%nat w).2 = delete 0%nat (heap w).
Proof.
  intros w o. apply (FreenectDevice_dtor_surfaces_failure 0%nat o w).
  vm_compute. reflexivity.
Defined.

(** ** What the other operations leave alone *)

#[local] Hint Extern 1 (preserves (open_devices_are _) (modify _)) =>
  apply preserves_modify; unfold open_devices_are; intros ? ?; simpl;
  rewrite ?dom_alter_L; done : preserves.

Lemma open_devices_next_status D : preserves (open_devices_are D) next_status.
Proof. intros w H. exact H. Qed.
#[local] Hint Resolve open_devices_next_status : preserves.

Lemma open_devices_request_handle D :
  ∀ h a o,
    preserves (open_devices_are D) (startRGB h) ∧
    preserves (open_devices_are D) (stopRGB h) ∧
    preserves (open_devices_are D) (startDepth h) ∧
    preserves (open_devices_are D) (stopDepth h) ∧
    preserves (open_devices_are D) (setTiltDegrees h a) ∧
    preserves (open_devices_are D) (setLed h o) ∧
    preserves (open_devices_are D) (getAccelerometers_double h) ∧
    preserves (open_devices_are D) (getAccelerometers_int16 h) ∧
    preserves (open_devices_are D) deviceCount.
Proof. intros h a o. to_primitives. split_and!; preserves_go. Qed.

(** X7: a request other than [createDevice] and [deleteDevice] (the
    stream, tilt, LED and accelerometer operations on any pointer, and
    [deviceCount]) leaves the Context Manager object, the heap of handles
    and the set of open devices as they are, whether it returns or
    throws. *)
Theorem other_requests_keep_registry (r : request) (w : world) :
  (∀ i, r ≠ Req_createDevice i) →
  (∀ i, r ≠ Req_deleteDevice i) →
  self (serve r w) = self w ∧
  heap (serve r w) = heap w ∧
  dom (devices (drv (serve r w))) = dom (devices (drv w)).
Proof.
  intros Hc Hd.
  pose proof (heap_self_request_handle (heap w) (self w)) as H.
  pose proof (open_devices_request_handle (dom (devices (drv w)))) as G.
  assert (Hk : ∀ A (m : M A),
             preserves (heap_self_are (heap w) (self w)) m →
             preserves (open_devices_are (dom (devices (drv w)))) m →
             self (m w).2 = self w ∧ heap (m w).2 = heap w ∧
             dom (devices (drv (m w).2)) = dom (devices (drv w))).
  { intros A m Hm Hm'. destruct (Hm w) as [-> ->]; [done|].
    split_and!; try done. by apply Hm'. }
  destruct r as [i|i| |h|h|h|h|h a|h o|h|h]; unfold serve.
  - by destruct (Hc i).
  - by destruct (Hd i).
  - apply Hk; [apply heap_self_deviceCount|apply (G 0%nat PrimFloat.zero LED_OFF)].
  - apply Hk; [apply (H h PrimFloat.zero LED_OFF)|apply (G h PrimFloat.zero LED_OFF)].
  - apply Hk; [apply (H h PrimFloat.zero LED_OFF)|apply (G h PrimFloat.zero LED_OFF)].
  - apply Hk; [apply (H h PrimFloat.zero LED_OFF)|apply (G h PrimFloat.zero LED_OFF)].
  - apply Hk; [apply (H h PrimFloat.zero LED_OFF)|apply (G h PrimFloat.zero LED_OFF)].
  - apply Hk; [apply (H h a LED_OFF)|apply (G h a LED_OFF)].
  - apply Hk; [apply (H h PrimFloat.zero o)|apply (G h PrimFloat.zero o)].
  - apply Hk; [apply (H h PrimFloat.zero LED_OFF)|apply (G h PrimFloat.zero LED_OFF)].
  - apply Hk; [apply (H h PrimFloat.zero LED_OFF)|apply (G h PrimFloat.zero LED_OFF)].
Qed.

Lemma other_requests_keep_registry_witness :
  let w := run [New_Freenect; Request (Req_createDevice 0)]
             (boot 1 [0; 0; 0; 2]) in
  self (serve (Req_startDepth 0%nat) w) = self w ∧
  heap (serve (Req_startDepth 0%nat) w) = heap w ∧
  dom (devices (drv (serve (Req_startDepth 0%nat) w))) =
    dom (devices (drv w)).
Proof.
  intros w. apply (other_requests_keep_registry (Req_startDepth 0%nat) w);
    intros i; discriminate.
Defined.

(** ** [operator()] run on its own *)

Lemma operator_call_returned fuel : ∀ w w',
  operator_call fuel w = Some (Ok tt, w') →
  m_stop (self w) = true ∧ w' = w.
Proof.
  induction fuel as [|fuel IH]; intros w w' Hrun; [discriminate Hrun|].
  simpl in Hrun. destruct (m_stop (self w)) eqn:Hs.
  - by injection Hrun as <-.
  - pose proof (self_process_events (m_ctx (self w)) w) as Hself.
    destruct (freenect_process_events (m_ctx (self w)) w) as [[s|e] w1];
      [|discriminate Hrun].
    destruct (decide (s ≠ 0)); [discriminate Hrun|].
    destruct (IH w1 w' Hrun) as [H1 _]. simpl in Hself.
    rewrite Hself, Hs in H1. discriminate H1.
Qed.

(** X8: [operator()] run on its own, with room for at least one iteration,
    returns normally exactly when the stop flag is set at the call; it then
    returns at once: no call to the driver is made and the world is
    untouched. *)
Theorem operator_call_returns_only_when_stopped (fuel : nat) (w w' : world) :
  operator_call (S fuel) w = Some (Ok tt, w') ↔
  m_stop (self w) = true ∧ w' = w.
Proof.
  split.
  - apply operator_call_returned.
  - intros [Hs ->]. simpl. by rewrite Hs.
Qed.

Lemma operator_call_returns_only_when_stopped_witness :
  let w0 := run [New_Freenect; Request (Req_createDevice 0)] (boot 1 []) in
  let w := (run_schedule [Act_store_stop] (AtLoopTest, w0)).2 in
  operator_call 3 w = Some (Ok tt, w) ∧
  operator_call 3 w0 ≠ Some (Ok tt, w0).
Proof.
  intros w0 w. split.
  - apply (operator_call_returns_only_when_stopped 2 w w).
    split; [vm_compute|]; reflexivity.
  - intros H.
    apply (operator_call_returns_only_when_stopped 2 w0 w0) in H as [H _].
    vm_compute in H. discriminate H.
Defined.

Lemma process_events_nothing_pending c w :
  pending (drv w) = [] →
  freenect_process_events c w =
    (Ok (hd 0 (oracle w)),
     Build_world (drv w) (heap w) (next_ptr w) (next_thread w) (self w)
       (tl (oracle w)) (trace w ++ [Call_process_events c])).
Proof.
  intros Hp.
  unfold freenect_process_events, bind, log, modify, get, next_status.
  simpl. rewrite Hp. simpl. unfold with_drv, with_pending. simpl.
  rewrite <- Hp. by destruct (drv w).
Qed.

(** X9: with the flag clear, no frame pending and a driver that never
    reports a failure, [operator()] run on its own does not end, however
    many iterations it is given: only the flag or a failure ends the
    loop. *)
Theorem operator_call_runs_until_stopped (fuel : nat) (w : world) :
  m_stop (self w) = false →
  pending (drv w) = [] →
  Forall (λ s, s = 0) (oracle w) →
  operator_call fuel w = None.
Proof.
  revert w. induction fuel as [|fuel IH]; intros w Hs Hp Hz; [done|].
  simpl. rewrite Hs, (process_events_nothing_pending _ _ Hp).
  assert (hd 0 (oracle w) = 0) as ->.
  { destruct Hz; done. }
  destruct (decide (0 ≠ 0)); [done|].
  apply IH; simpl; try done.
  destruct Hz; [constructor|done].
Qed.

Lemma operator_call_runs_until_stopped_witness :
  operator_call 50 (run [New_Freenect] (boot 1 [0; 0; 0; 0])) = None.
Proof.
  apply operator_call_runs_until_stopped.
  - reflexivity.
  - reflexivity.
  - vm_compute. repeat constructor.
Defined.

(** X10: with the flag clear and no frame pending, when the driver
    reports success [k] times and then a failure, [operator()] throws the
    event-processing error after exactly [k + 1] calls, and makes no call
    after the one that failed. *)
Theorem operator_call_stops_at_first_failure (k fuel : nat) (s : Z)
    (rest : list Z) (w : world) :
  m_stop (self w) = false →
  pending (drv w) = [] →
  oracle w = replicate k 0 ++ s :: rest →
  s ≠ 0 →
  (k < fuel)%nat →
  ∃ w', operator_call fuel w = Some (Throw EventProcessingError, w') ∧
        trace w' =
          trace w ++ replicate (S k) (Call_process_events (m_ctx (self w))) ∧
        oracle w' = rest ∧
        self w' = self w.
Proof.
  revert fuel w. induction k as [|k IH]; intros fuel w Hs Hp Ho Hnz Hlt.
  - destruct fuel as [|fuel]; [lia|]. simpl.
    rewrite Hs, (process_events_nothing_pending _ _ Hp), Ho. simpl.
    destruct (decide (s ≠ 0)); [|done].
    eexists. split; [reflexivity|]. done.
  - destruct fuel as [|fuel]; [lia|]. simpl.
    rewrite Hs, (process_events_nothing_pending _ _ Hp), Ho. simpl.
    destruct (decide (0 ≠ 0)); [done|].
    set (w1 := Build_world _ _ _ _ _ _ _).
    destruct (IH fuel w1) as (w' & Hrun & Ht & Ho' & Hself);
      [exact Hs|exact Hp|reflexivity|exact Hnz|lia|].
    exists w'. split; [exact Hrun|]. split_and!; [|exact Ho'|exact Hself].
    rewrite Ht. unfold w1. simpl. rewrite <- app_assoc. reflexivity.
Qed.

Lemma operator_call_stops_at_first_failure_witness :
  let w := run [New_Freenect] (boot 1 [0; 0; 0; 0; 7; 1]) in
  ∃ w', operator_call 5 w = Some (Throw EventProcessingError, w') ∧
        trace w' =
          trace w ++ replicate 3 (Call_process_events (m_ctx (self w))) ∧
        oracle w' = [1] ∧
        self w' = self w.
Proof.
  intros w.
  apply (operator_call_stops_at_first_failure 2 5 7 [1] w).
  - reflexivity.
  - reflexivity.
  - vm_compute. reflexivity.
  - lia.
  - lia.
Defined.

(** ** Invariants of whole runs *)

(** X12: in every world a program can reach, every entry of the registry
    points to a living handle, and no handle is registered under two
    indices. *)
Theorem registry_entries_alive_and_distinct (n : Z) (statuses : list Z)
    (prog : list api_call) :
  let w := run prog (boot n statuses) in
  (∀ i h, m_devices (self w) !! i = Some h → is_Some (heap w !! h)) ∧
  (∀ i j h, m_devices (self w) !! i = Some h →
            m_devices (self w) !! j = Some h → i = j).
Proof.
  intros w. destruct (Inv_run prog _ (Inv_boot n statuses)) as [_ [R1 R2]].
  split; [exact R1|exact R2].
Qed.

(** X13: in every world a program can reach, the device of a living
    handle is open in the driver, and two different living handles never
    hold the same device. *)
Theorem living_handles_own_their_devices (n : Z) (statuses : list Z)
    (prog : list api_call) (h1 h2 : ptr) (o1 o2 : FreenectDevice) :
  let w := run prog (boot n statuses) in
  heap w !! h1 = Some o1 →
  heap w !! h2 = Some o2 →
  is_Some (devices (drv w) !! m_dev o1) ∧
  (m_dev o1 = m_dev o2 → h1 = h2).
Proof.
  intros w H1 H2.
  destruct (Inv_run prog _ (Inv_boot n statuses)) as [[Hd _ _] _].
  destruct (Hd h1 o1 H1) as (st1 & Hst1 & Hu1 & _).
  destruct (Hd h2 o2 H2) as (st2 & Hst2 & Hu2 & _).
  split; [by eexists|]. intros E. rewrite E in Hst1.
  rewrite Hst1 in Hst2. injection Hst2 as <-. congruence.
Qed.

Lemma living_handles_own_their_devices_witness :
  let w := run [New_Freenect; Request (Req_createDevice 4);
                Request (Req_createDevice 4); Request (Req_deleteDevice 4)]
             (boot 2 []) in
  is_Some (devices (drv w) !! m_dev (Build_FreenectDevice 0%nat)) ∧
  (m_dev (Build_FreenectDevice 0%nat) = m_dev (Build_FreenectDevice 1%nat) →
   0%nat = 1%nat).
Proof.
  intros w.
  apply (living_handles_own_their_devices 2 []
           [New_Freenect; Request (Req_createDevice 4);
            Request (Req_createDevice 4); Request (Req_deleteDevice 4)]
           0%nat 1%nat (Build_FreenectDevice 0%nat)
           (Build_FreenectDevice 1%nat)).
  - vm_compute. reflexivity.
  - vm_compute. reflexivity.
Defined.

(** ** What a destructor that returns has released *)

Lemma delete_each_closes its : ∀ w w',
  handles_ok w →
  (∀ it, it ∈ its → is_Some (heap w !! it.2)) →
  NoDup its.*2 →
  delete_each its w = (Ok tt, w') →
  (∀ d, devices (drv w) !! d = None → devices (drv w') !! d = None) ∧
  (∀ it o, it ∈ its → heap w !! it.2 = Some o →
           devices (drv w') !! m_dev o = None) ∧
  contexts (drv w') = contexts (drv w).
Proof.
  induction its as [|[i p] its IH]; intros w w' Hok Halive Hnd Hrun.
  - injection Hrun as <-. split_and!; [done| |done].
    intros it o Hit. by apply elem_of_nil in Hit.
  - simpl in Hnd. apply NoDup_cons in Hnd as [Hp Hnd].
    destruct (Halive (i, p)) as [o Ho]; [left|]. simpl in Ho.
    pose proof (handles_ok_delete_T p w Hok) as Hok1.
    destruct (delete_T_alive p o w Ho)
      as (w1 & Hdel & Hh1 & Hd1 & _ & _ & _ & _ & _).
    assert (Hc1 : contexts (drv (delete_T p w).2) = contexts (drv w)).
    { unfold delete_T, finally, FreenectDevice_dtor, deref,
        freenect_close_device, bind, get, log, modify, next_status, ret,
        throw. simpl. rewrite Ho. simpl.
      destruct (decide (hd 0 (oracle w) = 0)) as [Hs|Hs]; simpl.
      - rewrite Hs. done.
      - by destruct (decide (hd 0 (oracle w) ≠ 0)). }
    simpl in Hrun. unfold bind in Hrun. rewrite Hdel in Hrun, Hok1, Hc1.
    simpl in Hok1, Hc1.
    destruct (decide (hd 0 (oracle w) ≠ 0)) as [Hst|Hst]; [discriminate Hrun|].
    destruct (decide (hd 0 (oracle w) = 0)) as [Hz|Hz]; [|tauto].
    assert (Ha1 : ∀ it, it ∈ its → is_Some (heap w1 !! it.2)).
    { intros it Hit. rewrite Hh1, lookup_delete_ne.
      - apply Halive. by right.
      - intros ->. apply Hp. apply list_elem_of_fmap. by exists it. }
    destruct (IH w1 w' Hok1 Ha1 Hnd Hrun) as (Hmono & Hclosed & Hctx).
    split_and!.
    + intros d Hd. apply Hmono. rewrite Hd1. by apply lookup_delete_None; right.
    + intros it o' Hit Ho'. apply elem_of_cons in Hit as [->|Hit].
      * simpl in Ho'. rewrite Ho in Ho'. injection Ho' as <-.
        apply Hmono. rewrite Hd1. apply lookup_delete_eq.
      * apply (Hclosed it o' Hit). rewrite Hh1, lookup_delete_ne; [done|].
        intros ->. apply Hp. apply list_elem_of_fmap. by exists it.
    + by rewrite Hctx.
Qed.

(** X14: when the destructor of the Context Manager returns normally,
    every handle that was registered is destroyed, the device of each is no
    longer open in the driver, the context is no longer initialised and the
    registry is empty. *)
Theorem returned_destructor_released_all (n : Z) (statuses : list Z)
    (prog : list api_call) :
  let w := run prog (boot n statuses) in
  let r := Freenect_dtor w in
  r.1 = Ok tt →
  (∀ i h o, m_devices (self w) !! i = Some h → heap w !! h = Some o →
            heap r.2 !! h = None ∧ devices (drv r.2) !! m_dev o = None) ∧
  (m_ctx (self w) ∉ contexts (drv r.2)) ∧
  m_devices (self r.2) = ∅.
Proof.
  intros w. generalize (Inv_run prog _ (Inv_boot n statuses)).
  fold w. generalize w. clear. intros w [Hh Hr] r Hok.
  assert (Halive : ∀ it, it ∈ map_entries (m_devices (self w)) →
                         is_Some (heap w !! it.2)).
  { intros [i h] Hit. apply elem_of_map_entries in Hit.
    by apply (ro_alive w Hr i h). }
  pose proof (map_entries_NoDup_snd w Hr) as Hnd.
  destruct (delete_each_run _ w Halive Hnd)
    as (k & r1 & w1 & Hrun & _ & Hs1 & _ & _ & Hdead & Hres).
  subst r. revert Hok.
  unfold Freenect_dtor, finally, Freenect_dtor_body, bind, get. simpl.
  rewrite Hrun. destruct r1 as [[]|e]; [|discriminate].
  destruct Hres as [-> _].
  destruct (delete_each_closes _ w w1 Hh Halive Hnd Hrun)
    as (_ & Hclosed & Hctx).
  unfold modify, log, pthread_join, freenect_shutdown, bind, next_status,
    modify, ret. simpl.
  destruct (decide (hd 0 (oracle w1) = 0)) as [Hz|Hz]; simpl;
    [|destruct (decide (hd 0 (oracle w1) ≠ 0)); [discriminate|done]].
  rewrite Hz. simpl. intros _. split_and!.
  - intros i h o Hih Ho. split.
    + apply (Hdead (i, h)). rewrite take_ge by done.
      by apply elem_of_map_entries.
    + apply (Hclosed (i, h) o); [|done]. by apply elem_of_map_entries.
  - rewrite Hs1. intros Hin. apply elem_of_difference in Hin as [_ Hn].
    apply Hn. by apply elem_of_singleton.
  - done.
Qed.

Lemma returned_destructor_released_all_witness :
  let w := run [New_Freenect; Request (Req_createDevice 5);
                Request (Req_createDevice 2)] (boot 2 []) in
  let r := Freenect_dtor w in
  devices (drv r.2) = ∅ ∧ heap r.2 = ∅ ∧
  m_ctx (self w) ∉ contexts (drv r.2).
Proof.
  intros w r.
  assert (Hok : r.1 = Ok tt) by (vm_compute; reflexivity).
  destruct (returned_destructor_released_all 2 []
              [New_Freenect; Request (Req_createDevice 5);
               Request (Req_createDevice 2)] Hok) as (_ & Hctx & _).
  split_and!; [vm_compute; reflexivity|vm_compute; reflexivity|exact Hctx].
Defined.
